(** * fetch-repodata: a shallow embedding of [fetch-repodata.py]

    The script mirrors [repodata.json] index files of conda channels.  This
    development embeds its functions [get_ntp_time],
    [cleanup_unneeded_info], [fetch_repodata] and [fetch], the action
    [AppendDefaultAction] and [parse_args], [get_argument_parser] and [main]
    of its command line, and proves properties of them.

    Conventions of the embedding.
    - A Python [str] is a [string] (its UTF-8 bytes).
    - A Python [dict] is a [gmap]; the documents are dumped with
      [sort_keys=True], so insertion order is never observed.
    - A raised exception is the [Err] case of [result].
    - Effects on the outside world (NTP and HTTP requests, log records, file
      system operations) are recorded as a list of [event]s in program order;
      the answers of the outside world come from a [world] record.
    - The document handled by [cleanup_unneeded_info] is a Python object with
      an identity, so it lives in a heap of dictionaries and is passed by
      location. *)

From Stdlib Require Import ZArith String Ascii List.
From stdpp Require Import gmap strings list fin_maps sorting.

Set Warnings "-register-all".
Local Open Scope string_scope.
Local Open Scope list_scope.
Local Open Scope Z_scope.

(** ** Exceptions and results *)

Inductive exn : Type :=
  | FetchError (msg : string) (arg : option (gset string))
      (** [FetchError(msg)] and [FetchError(msg, channels)] *)
  | NTPUncaught
      (** an exception of [NTPClient.request] other than [NTPException] *)
  | HTTPError (status_code : Z)
      (** raised by [response.raise_for_status()] *)
  | RequestFailed
      (** raised by [session.get] itself: no response was obtained *)
  | JSONDecodeError
  | AttributeError
  | InvalidReference
      (** a location outside the heap; no Python program produces one *)
  | OSError (path : string).

Global Instance exn_eq_dec : EqDecision exn.
Proof. solve_decision. Defined.

Inductive result (A : Type) : Type :=
  | Ok (a : A)
  | Err (e : exn).
Arguments Ok {A} a.
Arguments Err {A} e.

Global Instance result_eq_dec {A : Type} `{EqDecision A} : EqDecision (result A).
Proof. solve_decision. Defined.

Definition rbind {A B : Type} (m : result A) (k : A → result B) : result B :=
  match m with
  | Ok a => k a
  | Err e => Err e
  end.

Notation "'try' x ⇐ m 'in' k" := (rbind m (λ x, k))
  (at level 10, x pattern, m at level 100, k at level 200).

Definition is_Ok {A : Type} (r : result A) : Prop :=
  match r with Ok _ => True | Err _ => False end.

Global Instance is_Ok_dec {A : Type} (r : result A) : Decision (is_Ok r).
Proof. destruct r; simpl; apply _. Defined.

(** ** JSON values and the heap of documents *)

(** The value of [json.loads].  Numbers keep their literal: the program never
    computes with them. *)
Inductive json : Type :=
  | JNull
  | JBool (b : bool)
  | JNumber (literal : string)
  | JString (s : string)
  | JArray (items : list json)
  | JObject (fields : gmap string json).

Definition is_JObject (v : json) : Prop :=
  match v with JObject _ => True | _ => False end.

Global Instance is_JObject_dec (v : json) : Decision (is_JObject v).
Proof. destruct v; simpl; apply _. Defined.

Abbreviation dict := (gmap string json).
Abbreviation loc := positive.
Abbreviation heap := (gmap positive (gmap string json)).

(** ** [cleanup_unneeded_info] *)

(** [{key: value for key, value in package.items() if key not in trim_keys}] *)
Definition trim_package (trim_keys : list string) (package : dict) : dict :=
  filter (λ kv : string * json, kv.1 ∉ trim_keys) package.

Definition trim_entry (trim_keys : list string) (package : json) : json :=
  match package with
  | JObject attrs => JObject (trim_package trim_keys attrs)
  | other => other
  end.

(** The dict comprehension over [repodata[packages_key].items()].  Both
    [.items()] calls need a dict: on any other value Python raises
    [AttributeError], from the outer call if [packages] is not a dict and from
    the inner one at the first entry that is not. *)
Definition trim_packages (trim_keys : list string) (packages : json) : result json :=
  match packages with
  | JObject entries =>
      if decide (map_Forall (λ _ package, is_JObject package) entries)
      then Ok (JObject (trim_entry trim_keys <$> entries))
      else Err AttributeError
  | _ => Err AttributeError
  end.

Definition packages_keys : list string := ["packages"; "packages.conda"].

(** One iteration of the loop over [packages_keys]: [repodata] is the value of
    the input document, [output_repodata] the location of the copy, which the
    iteration updates in place. *)
Definition cleanup_step (trim_keys : list string) (repodata : dict)
    (output_repodata : loc) (acc : result heap) (packages_key : string)
    : result heap :=
  try h ⇐ acc in
  match repodata !! packages_key with
  | Some packages =>
      try trimmed ⇐ trim_packages trim_keys packages in
      Ok (alter (insert packages_key trimmed) output_repodata h)
  | None => Ok h
  end.

Definition cleanup_unneeded_info (h : heap) (repodata : loc)
    (trim_keys : list string) : result (heap * loc) :=
  if bool_decide (trim_keys = []) then Ok (h, repodata)
  else
    match h !! repodata with
    | None => Err InvalidReference
    | Some d =>
        let output_repodata := fresh (dom h) in
        let h1 := <[output_repodata := d]> h in
        try h2 ⇐ foldl (cleanup_step trim_keys d output_repodata) (Ok h1)
                    packages_keys in
        Ok (h2, output_repodata)
    end.

(** A repodata document: [packages] and [packages.conda], where present, map
    file names to package-metadata mappings. *)
Definition packages_wf (v : json) : Prop :=
  match v with
  | JObject entries => map_Forall (λ _ package, is_JObject package) entries
  | _ => False
  end.

Global Instance packages_wf_dec (v : json) : Decision (packages_wf v).
Proof. destruct v; simpl; apply _. Defined.

Definition repodata_wf (d : dict) : Prop :=
  Forall (λ pk, from_option packages_wf True (d !! pk)) packages_keys.

Global Instance repodata_wf_dec (d : dict) : Decision (repodata_wf d).
Proof.
  apply Forall_dec. intros pk. destruct (d !! pk); simpl; apply _.
Defined.

(** [package'] is [package] without the keys of [trim_keys]. *)
Definition trimmed_of (trim_keys : list string) (package package' : dict) : Prop :=
  (∀ key, key ∈ trim_keys → package' !! key = None) ∧
  (∀ key, key ∉ trim_keys → package' !! key = package !! key).

(** The value the loop stores under a packages key of a well-formed document. *)
Definition trim_value (trim_keys : list string) (v : json) : json :=
  match v with
  | JObject entries => JObject (trim_entry trim_keys <$> entries)
  | other => other
  end.

(** The value of the document under [key] after the loop. *)
Definition trimmed_lookup (trim_keys : list string) (d : dict) (key : string)
    : option json :=
  if decide (key ∈ packages_keys) then trim_value trim_keys <$> d !! key
  else d !! key.

(** ** Output configuration *)

Record OutputConfig : Type := {
  output_root : string;
  indent : Z;
  separators : string * string;
  trim_keys : list string;
}.

Definition default_trim_keys : list string :=
  [ "md5"; "subdir"; "license_family"; "app_entry"; "app_own_environment";
    "app_type"; "arch"; "icon"; "platform"; "summary"; "type"; "binstar";
    "has_prefix"; "machine"; "operatingsystem"; "target-triplet" ].

(** ** The HTTP session *)

(** A decimal fraction [mantissa * 10 ^ exponent], for float literals. *)
Record decimal : Type := { mantissa : Z; exponent : Z }.

Record Retry : Type := {
  total : Z;
  backoff_factor : decimal;
  raise_on_status : bool;
  raise_on_redirect : bool;
}.

Record HTTPAdapter : Type := { max_retries : option Retry }.

Record Session : Type := {
  headers : gmap string string;
  adapters : gmap string HTTPAdapter;
}.

(** [session.mount(prefix, adapter)] *)
Definition mount (prefix : string) (adapter : HTTPAdapter) (session : Session)
    : Session :=
  {| headers := headers session;
     adapters := <[prefix := adapter]> (adapters session) |}.

(** ** The outside world and its events *)

Inductive ntp_reply : Type :=
  | NtpResponse (tx_time : Z)
      (** [tx_time] in microseconds since the epoch, the resolution
          [datetime.fromtimestamp] rounds the float to *)
  | NtpNoResponse
      (** [NTPException] *)
  | NtpFailure.
      (** any other exception of [NTPClient.request] *)

Inductive http_reply : Type :=
  | HttpResponse (status_code : Z) (text : string)
  | HttpFailure.
      (** [session.get] raised: connection error, retries exhausted, ... *)

Inductive log_level : Type := INFO | WARNING.

Inductive event : Type :=
  | EvNtpRequest (server : string) (version timeout : Z)
  | EvLog (level : log_level) (msg : string)
  | EvHttpGet (url : string)
  | EvMakedirs (dir : string)
  | EvOpen (path : string)
      (** [open(path, "w")]: the file is created or truncated *)
  | EvWrite (path text : string).
      (** [text] reaches the file opened at [path] *)

Global Instance log_level_eq_dec : EqDecision log_level.
Proof. solve_decision. Defined.

Global Instance event_eq_dec : EqDecision event.
Proof. solve_decision. Defined.

(** What the script obtains from outside its own code: the answers of the
    network, the local time zone, the file system's refusals, the order in
    which the pool's futures complete, and the library functions of [json]
    and [requests] that are used as black boxes. *)
Record world : Type := {
  ntp_request : string → Z → Z → ntp_reply;
  utcoffset : Z → Z;
      (** seconds east of UTC of the local time zone at an epoch second *)
  new_session : Session;
      (** [Session()] *)
  http_get : Session → string → http_reply;
  json_loads : string → option dict;
      (** [None]: the body is not a JSON document *)
  json_dump : dict → Z → string * string → string;
      (** the text [json.dump(..., sort_keys=True, indent, separators)] writes *)
  io_fails : string → bool;
      (** the paths at which [os.makedirs] and [open] raise [OSError] *)
  completion : nat → nat;
      (** the time at which the future submitted as number [i] completes *)
}.

(** A computation that emits events and returns or raises. *)
Definition io (A : Type) : Type := list event * result A.

Definition ret {A : Type} (a : A) : io A := ([], Ok a).
Definition raise {A : Type} (e : exn) : io A := ([], Err e).
Definition emit (ev : event) : io unit := ([ev], Ok tt).
Definition lift {A : Type} (r : result A) : io A := ([], r).

Definition bind {A B : Type} (m : io A) (k : A → io B) : io B :=
  match m with
  | (evs, Ok a) => let '(evs', r) := k a in (evs ++ evs', r)
  | (evs, Err e) => (evs, Err e)
  end.

Notation "'do' x ← m 'in' k" := (bind m (λ x, k))
  (at level 10, x pattern, m at level 100, k at level 200,
   format "'[v' 'do'  x  ←  m  'in' '/' k ']'").
Notation "'perform' m 'in' k" := (bind m (λ _, k))
  (at level 10, m at level 100, k at level 200,
   format "'[v' 'perform'  m  'in' '/' k ']'").

(** ** [get_ntp_time] *)

(** A naive [datetime]. *)
Record datetime : Type := {
  year : Z; month : Z; day : Z;
  hour : Z; minute : Z; second : Z; microsecond : Z;
}.

(** Year, month and day of the proleptic Gregorian calendar from the number
    of days since 1970-01-01. *)
Definition civil_from_days (days : Z) : Z * Z * Z :=
  let z := days + 719468 in
  let era := z / 146097 in
  let doe := z - era * 146097 in
  let yoe := (doe - doe / 1460 + doe / 36524 - doe / 146096) / 365 in
  let doy := doe - (365 * yoe + yoe / 4 - yoe / 100) in
  let mp := (5 * doy + 2) / 153 in
  let d := doy - (153 * mp + 2) / 5 + 1 in
  let m := if mp <? 10 then mp + 3 else mp - 9 in
  let y := yoe + era * 400 in
  (if m <=? 2 then y + 1 else y, m, d).

(** The broken-down time of an instant shifted by [offset] seconds. *)
Definition broken_down (offset : Z) (t : Z) : datetime :=
  let secs := t / 1000000 + offset in
  let '(y, m, d) := civil_from_days (secs / 86400) in
  let sod := secs mod 86400 in
  {| year := y; month := m; day := d;
     hour := sod / 3600; minute := sod mod 3600 / 60; second := sod mod 60;
     microsecond := t mod 1000000 |}.

(** [datetime.fromtimestamp(t)] with no [tz] argument: the naive local time. *)
Definition fromtimestamp (w : world) (t : Z) : datetime :=
  broken_down (utcoffset w (t / 1000000)) t.

(** [datetime.utcfromtimestamp(t)]: the naive UTC time. *)
Definition utcfromtimestamp (t : Z) : datetime := broken_down 0 t.

Definition digit (n : Z) : ascii := ascii_of_N (48 + Z.to_N (n mod 10)).

Definition pad2 (n : Z) : string := String (digit (n / 10)) (String (digit n) "").

Definition pad4 (n : Z) : string :=
  String (digit (n / 1000)) (String (digit (n / 100)) (pad2 n)).

(** [time.strftime("%Y-%m-%dT%H:%M:%S+00:00")], for years 1000 to 9999. *)
Definition strftime (time : datetime) : string :=
  pad4 (year time) +:+ "-" +:+ pad2 (month time) +:+ "-" +:+ pad2 (day time)
  +:+ "T" +:+ pad2 (hour time) +:+ ":" +:+ pad2 (minute time) +:+ ":"
  +:+ pad2 (second time) +:+ "+00:00".

Definition ntp_pool : list string :=
  [ "0.pool.ntp.org"; "1.pool.ntp.org"; "2.pool.ntp.org"; "3.pool.ntp.org" ].

(** The [for server in ntp_pool] loop with the [raise] that follows it. *)
Fixpoint get_ntp_time_from (w : world) (servers : list string) : io string :=
  match servers with
  | [] => raise (FetchError "Could not get timestamp." None)
  | server :: rest =>
      perform emit (EvNtpRequest server 4 2) in
      match ntp_request w server 4 2 with
      | NtpNoResponse => get_ntp_time_from w rest
      | NtpFailure => raise NTPUncaught
      | NtpResponse tx_time => ret (strftime (fromtimestamp w tx_time))
      end
  end.

Definition get_ntp_time (w : world) : io string := get_ntp_time_from w ntp_pool.

(** ** [fetch_repodata] *)

Definition is_unreserved (c : ascii) : bool :=
  let n := N_of_ascii c in
  ((65 <=? n) && (n <=? 90) || (97 <=? n) && (n <=? 122)
   || (48 <=? n) && (n <=? 57))%N
  || bool_decide (c ∈ ["_"; "."; "-"; "~"]%char).

Definition hex_digit (n : N) : ascii :=
  if (n <? 10)%N then ascii_of_N (48 + n) else ascii_of_N (55 + n).

(** [urllib.parse.quote(s)] with its default [safe="/"]: every byte other
    than an unreserved character or a slash becomes [%XX]. *)
Fixpoint urllib_quote (s : string) : string :=
  match s with
  | "" => ""
  | String c rest =>
      if is_unreserved c || bool_decide (c = "/"%char)
      then String c (urllib_quote rest)
      else let n := N_of_ascii c in
           String "%" (String (hex_digit (n / 16)) (String (hex_digit (n mod 16))
             (urllib_quote rest)))
  end.

(** [re_sub("//", "%2F/", s)]: the occurrences of two slashes, found from the
    left and not overlapping, are replaced. *)
Fixpoint re_sub_slashes (s : string) : string :=
  match s with
  | "" => ""
  | String c rest =>
      match rest with
      | String c' rest' =>
          if bool_decide (c = "/"%char) && bool_decide (c' = "/"%char)
          then "%2F/" +:+ re_sub_slashes rest'
          else String c (re_sub_slashes rest)
      | "" => String c ""
      end
  end.

Definition url_prefix (channel subdir : string) : string :=
  channel +:+ "/" +:+ subdir.

Definition output_dir (output_config : OutputConfig) (channel subdir : string)
    : string :=
  let output_subdir := re_sub_slashes (urllib_quote (url_prefix channel subdir)) in
  output_root output_config +:+ "/" +:+ output_subdir.

Definition output_file_path (output_config : OutputConfig)
    (channel subdir : string) : string :=
  output_dir output_config channel subdir +:+ "/repodata.json".

(** [response.raise_for_status()] *)
Definition raise_for_status (status_code : Z) : result unit :=
  if (400 <=? status_code) && (status_code <? 600)
  then Err (HTTPError status_code)
  else Ok tt.

(** [os.makedirs(dir, exist_ok=True)] *)
Definition makedirs (w : world) (dir : string) : io unit :=
  if io_fails w dir then raise (OSError dir) else emit (EvMakedirs dir).

(** [with open(path, "w") as f:] followed by one write of [text] to [f]. *)
Definition write_file (w : world) (path text : string) : io unit :=
  if io_fails w path then raise (OSError path)
  else perform emit (EvOpen path) in emit (EvWrite path text).

(** [print(text, file=f)] writes [text] and a newline. *)
Definition print_line (text : string) : string := text +:+ String "010" "".

Definition fetch_repodata (w : world) (session : Session) (timestamp : string)
    (output_config : OutputConfig) (channel subdir : string)
    : io (string * string * bool) :=
  let url := url_prefix channel subdir +:+ "/repodata.json" in
  perform emit (EvLog INFO ("Fetching " +:+ url +:+ " ...")) in
  perform emit (EvHttpGet url) in
  match http_get w session url with
  | HttpFailure => raise RequestFailed
  | HttpResponse status_code text =>
      match raise_for_status status_code with
      | Err (HTTPError code) =>
          if code =? 404 then
            perform emit (EvLog WARNING
                            ("No repodata.json found for subdir " +:+ subdir
                             +:+ " in channel " +:+ channel +:+ " .")) in
            ret (channel, subdir, false)
          else raise (HTTPError code)
      | Err e => raise e
      | Ok _ =>
          do input_repodata ← lift (from_option Ok (Err JSONDecodeError)
                                     (json_loads w text)) in
          let input_loc : loc := fresh (dom (∅ : heap)) in
          do (h, out) ← lift (cleanup_unneeded_info
                               (<[input_loc := input_repodata]> ∅) input_loc
                               (trim_keys output_config)) in
          do output_repodata ← lift (from_option Ok (Err InvalidReference)
                                      (h !! out)) in
          perform makedirs w (output_dir output_config channel subdir) in
          let output_file_path := output_file_path output_config channel subdir in
          perform emit (EvLog INFO ("Writing " +:+ output_file_path +:+ " ...")) in
          perform write_file w (output_file_path +:+ ".time")
                    (print_line timestamp) in
          perform write_file w output_file_path
                    (json_dump w output_repodata (indent output_config)
                       (separators output_config)) in
          ret (channel, subdir, true)
      end
  end.

(** The events of a worker whose target is absent. *)
Definition not_found_trace (channel subdir : string) : list event :=
  let url := url_prefix channel subdir +:+ "/repodata.json" in
  [ EvLog INFO ("Fetching " +:+ url +:+ " ...");
    EvHttpGet url;
    EvLog WARNING ("No repodata.json found for subdir " +:+ subdir
                   +:+ " in channel " +:+ channel +:+ " .") ].

(** The events of a worker that writes [text] as its document. *)
Definition success_trace (output_config : OutputConfig) (timestamp : string)
    (channel subdir text : string) : list event :=
  let url := url_prefix channel subdir +:+ "/repodata.json" in
  let path := output_file_path output_config channel subdir in
  [ EvLog INFO ("Fetching " +:+ url +:+ " ...");
    EvHttpGet url;
    EvMakedirs (output_dir output_config channel subdir);
    EvLog INFO ("Writing " +:+ path +:+ " ...");
    EvOpen (path +:+ ".time");
    EvWrite (path +:+ ".time") (print_line timestamp);
    EvOpen path;
    EvWrite path text ].

(** ** [fetch] *)

Definition retry_config : Retry :=
  {| total := 5;
     backoff_factor := {| mantissa := 1; exponent := -1 |};
     raise_on_status := true;
     raise_on_redirect := false |}.

(** The session as [fetch] sets it up before any request. *)
Definition fetch_session (w : world) : Session :=
  let session := new_session w in
  let session :=
    {| headers := alter (λ v, v +:+ " https://github.com/bioconda/bioconda-repodata")
                    "User-Agent" (headers session);
       adapters := adapters session |} in
  let adapter := {| max_retries := Some retry_config |} in
  mount "https://" adapter (mount "http://" adapter session).

(** The targets in the order of submission: [for subdir in subdirs: for
    channel in channels]. *)
Definition targets (channels subdirs : list string) : list (string * string) :=
  subdir ← subdirs; channel ← channels; [(channel, subdir)].

Definition completes_before {A : Type} (a b : nat * A) : Prop := (a.1 ≤ b.1)%nat.

Global Instance completes_before_dec {A : Type} (a b : nat * A) :
  Decision (completes_before a b).
Proof. unfold completes_before. apply _. Defined.

(** [as_completed(futures)]: the futures by time of completion. *)
Definition as_completed {A : Type} (w : world) (futures : list A) : list A :=
  snd <$> merge_sort completes_before
            (imap (λ i future, (completion w i, future)) futures).

(** The loop over the completed futures: [future.result()] re-raises what the
    worker raised. *)
Fixpoint collect (unfetched_channels : gset string)
    (results : list (result (string * string * bool))) : result (gset string) :=
  match results with
  | [] => Ok unfetched_channels
  | future :: rest =>
      try (channel, _, success) ⇐ future in
      collect (if success : bool then unfetched_channels ∖ {[channel]}
               else unfetched_channels) rest
  end.

Definition root_time_path (output_config : OutputConfig) : string :=
  output_root output_config +:+ "/.time".

(** A run of [fetch]: the events of the main process before the pool starts,
    the events of each worker, the events of the main process once the pool
    has shut down (which waits for every worker), and how the call ends. *)
Record run : Type := {
  main_before : list event;
  workers : list (list event);
  main_after : list event;
  outcome : result unit;
}.

(** [executor.submit(fetch_repodata, session, timestamp, output_config,
    channel, subdir)]: the future holds what the worker does and how it ends. *)
Definition submit (w : world) (session : Session) (timestamp : string)
    (output_config : OutputConfig) (target : string * string)
    : io (string * string * bool) :=
  fetch_repodata w session timestamp output_config target.1 target.2.

Definition fetch (w : world) (output_config : OutputConfig)
    (channels subdirs : list string) : run :=
  let session := fetch_session w in
  let clock := get_ntp_time w in
  match clock.2 with
  | Err e =>
      {| main_before := clock.1; workers := []; main_after := []; outcome := Err e |}
  | Ok timestamp =>
      let futures :=
        submit w session timestamp output_config <$> targets channels subdirs in
      let judged :=
        try unfetched_channels ⇐ collect (list_to_set channels)
                                    (snd <$> as_completed w futures) in
        if decide (unfetched_channels ≠ ∅) then
          Err (FetchError "No repodata.json found for any subdir in channels %s ."
                 (Some unfetched_channels))
        else Ok tt in
      let finish :=
        perform lift judged in
        write_file w (root_time_path output_config) (print_line timestamp) in
      {| main_before := clock.1; workers := fst <$> futures;
         main_after := finish.1; outcome := finish.2 |}
  end.

(** What [future.result()] gives for the futures of a run, in the order in
    which [as_completed] yields them. *)
Definition pool_results (w : world) (output_config : OutputConfig)
    (channels subdirs : list string) (timestamp : string)
    : list (result (string * string * bool)) :=
  snd <$> as_completed w
            (submit w (fetch_session w) timestamp output_config
             <$> targets channels subdirs).

(** ** Traces of a run and the files they leave *)

(** The workers run side by side: a schedule names, step by step, the worker
    that performs its next event.  The result is the events performed and what
    each worker has left to do. *)
Fixpoint interleave (sched : list nat) (pending : list (list event))
    : list event * list (list event) :=
  match sched with
  | [] => ([], pending)
  | i :: sched' =>
      match pending !! i with
      | Some (ev :: rest) =>
          let '(evs, remaining) := interleave sched' (<[i := rest]> pending) in
          (ev :: evs, remaining)
      | _ => interleave sched' pending
      end
  end.

(** The schedule that lets the workers run one after the other. *)
Definition sequential_schedule (first : nat) (ws : list (list event)) : list nat :=
  concat (imap (λ i l, replicate (length l) (first + i)%nat) ws).

(** The events of a run under a schedule, which may stop early; the main
    process resumes only when no worker has anything left to do. *)
Definition run_trace (sched : list nat) (r : run) : list event :=
  let '(evs, remaining) := interleave sched (workers r) in
  main_before r ++ evs
  ++ (if decide (Forall (λ l, l = []) remaining) then main_after r else []).

Abbreviation files := (gmap string string).

Definition apply_event (fs : files) (ev : event) : files :=
  match ev with
  | EvOpen path => <[path := ""]> fs
  | EvWrite path text => alter (λ old, old +:+ text) path fs
  | _ => fs
  end.

Definition files_after (fs : files) (trace : list event) : files :=
  foldl apply_event fs trace.

(** The characters of a string, to speak of its end. *)
Fixpoint chars (s : string) : list ascii :=
  match s with
  | "" => []
  | String c rest => c :: chars rest
  end.

Definition has_suffix (suffix path : string) : Prop :=
  chars suffix `suffix_of` chars path.

Global Instance has_suffix_dec (suffix path : string) :
  Decision (has_suffix suffix path).
Proof. unfold has_suffix. apply _. Defined.

(** [path] is the main artifact of some target directory. *)
Definition is_repodata_json (path : string) : Prop :=
  has_suffix "/repodata.json" path.

(** [path] is a timestamp file, of a target or of the run. *)
Definition is_time_file (path : string) : Prop := has_suffix ".time" path.

(** Two slashes in a row. *)
Fixpoint has_double_slash (s : string) : bool :=
  match s with
  | "" => false
  | String c rest =>
      match rest with
      | String c' _ =>
          bool_decide (c = "/"%char) && bool_decide (c' = "/"%char)
          || has_double_slash rest
      | "" => false
      end
  end.

(** The event creates [path] or writes to it. *)
Definition writes_to (ev : event) (path : string) : Prop :=
  match ev with
  | EvOpen p | EvWrite p _ => p = path
  | _ => False
  end.

Global Instance writes_to_dec (ev : event) (path : string) :
  Decision (writes_to ev path).
Proof. destruct ev; simpl; apply _. Defined.

(** Every [repodata.json] on disk has its [repodata.json.time] next to it. *)
Definition companions_present (fs : files) : Prop :=
  map_Forall (λ path _, is_repodata_json path →
                        is_Some (fs !! (path +:+ ".time"))) fs.

Global Instance companions_present_dec (fs : files) :
  Decision (companions_present fs).
Proof. unfold companions_present, is_repodata_json. apply _. Defined.

(** In [l], performed after the events [seen], a [repodata.json] is opened
    only after its companion has been opened. *)
Definition opens_guarded (seen l : list event) : Prop :=
  ∀ l1 path l2, l = l1 ++ EvOpen path :: l2 → is_repodata_json path →
    EvOpen (path +:+ ".time") ∈ seen ++ l1.

(** ** Samples *)

(** A small document and heap on which the statements are exercised. *)
Definition sample_repodata : dict :=
  <["info" := JObject (<["subdir" := JString "linux-64"]> ∅)]>
  (<["packages" :=
       JObject (<["a-1.0-0.tar.bz2" :=
                    JObject (<["md5" := JString "d41d8cd9"]>
                             (<["name" := JString "a"]>
                              (<["subdir" := JString "linux-64"]> ∅)))]> ∅)]>
   (<["packages.conda" := JObject ∅]> ∅)).

Definition sample_heap : heap := <[1%positive := sample_repodata]> ∅.

(** A world for the scenarios: the first time server does not answer and the
    second does, the local time zone is one hour east of UTC, and of all
    targets only [https://example.org/chan/noarch] exists;
    [https://example.org/broken/noarch] is answered by status 500 and every
    other target by 404. *)
Definition sample_world : world := {|
  ntp_request := λ server _ _,
    if bool_decide (server = "0.pool.ntp.org") then NtpNoResponse
    else NtpResponse 1700000000000000;
  utcoffset := λ _, 3600;
  new_session :=
    {| headers := {[ "User-Agent" := "python-requests/2.31.0" ]};
       adapters := ∅ |};
  http_get := λ _ url,
    if bool_decide (url = "https://example.org/chan/noarch/repodata.json")
    then HttpResponse 200 "{}"
    else if bool_decide (url = "https://example.org/broken/noarch/repodata.json")
    then HttpResponse 500 ""
    else HttpResponse 404 "";
  json_loads := λ _, Some sample_repodata;
  json_dump := λ _ _ _, "{}";
  io_fails := λ _, false;
  completion := λ i, i;
|}.


Definition sample_config : OutputConfig :=
  {| output_root := "out"; indent := 0; separators := (",", ":");
     trim_keys := default_trim_keys |}.

(** ** Further samples *)

(** The sample world in which the request to the second time server fails
    with an exception that is not an [NTPException]. *)
Definition unresolvable_world : world := {|
  ntp_request := λ server _ _,
    if bool_decide (server = "0.pool.ntp.org") then NtpNoResponse
    else NtpFailure;
  utcoffset := utcoffset sample_world;
  new_session := new_session sample_world;
  http_get := http_get sample_world;
  json_loads := json_loads sample_world;
  json_dump := json_dump sample_world;
  io_fails := io_fails sample_world;
  completion := completion sample_world;
|}.

(** A document whose [packages] is a list, not a mapping, and a heap that
    holds it. *)
Definition malformed_repodata : dict :=
  <["packages" := JArray [JString "a-1.0-0.tar.bz2"]]> ∅.

Definition malformed_heap : heap := <[1%positive := malformed_repodata]> ∅.

(** ** The runs of a worker *)

(** The URL an event requests, if it is a request. *)
Definition requested_url (ev : event) : option string :=
  match ev with
  | EvHttpGet url => Some url
  | _ => None
  end.

(** The event acts on the file system. *)
Definition is_fs_event (ev : event) : Prop :=
  match ev with
  | EvMakedirs _ | EvOpen _ | EvWrite _ _ => True
  | _ => False
  end.

Global Instance is_fs_event_dec (ev : event) : Decision (is_fs_event ev).
Proof. destruct ev; simpl; apply _. Defined.

(** The two events every worker starts with. *)
Definition request_trace (channel subdir : string) : list event :=
  let url := url_prefix channel subdir +:+ "/repodata.json" in
  [ EvLog INFO ("Fetching " +:+ url +:+ " ..."); EvHttpGet url ].

(** The worker of a target got a response that is no HTTP error, parsed its
    body to [input_repodata] and trimmed that to [output_repodata]. *)
Definition worker_document (w : world) (session : Session)
    (output_config : OutputConfig) (channel subdir : string)
    (input_repodata output_repodata : dict) : Prop :=
  ∃ status_code text h out,
    http_get w session (url_prefix channel subdir +:+ "/repodata.json")
    = HttpResponse status_code text ∧
    ¬ (400 ≤ status_code < 600) ∧
    json_loads w text = Some input_repodata ∧
    cleanup_unneeded_info (<[fresh (dom (∅ : heap)) := input_repodata]> ∅)
      (fresh (dom (∅ : heap))) (trim_keys output_config) = Ok (h, out) ∧
    h !! out = Some output_repodata.

(** The ways in which [fetch_repodata] ends, one constructor for each
    [return] and each place that can raise, with what it has done by then. *)
Inductive worker_run (w : world) (session : Session) (timestamp : string)
    (output_config : OutputConfig) (channel subdir : string)
    : io (string * string * bool) → Prop :=
  | WorkerNoResponse :
      http_get w session (url_prefix channel subdir +:+ "/repodata.json")
      = HttpFailure →
      worker_run w session timestamp output_config channel subdir
        (request_trace channel subdir, Err RequestFailed)
  | WorkerNotFound text :
      http_get w session (url_prefix channel subdir +:+ "/repodata.json")
      = HttpResponse 404 text →
      worker_run w session timestamp output_config channel subdir
        (not_found_trace channel subdir, Ok (channel, subdir, false))
  | WorkerHttpError status_code text :
      http_get w session (url_prefix channel subdir +:+ "/repodata.json")
      = HttpResponse status_code text →
      400 ≤ status_code < 600 → status_code ≠ 404 →
      worker_run w session timestamp output_config channel subdir
        (request_trace channel subdir, Err (HTTPError status_code))
  | WorkerNotJson status_code text :
      http_get w session (url_prefix channel subdir +:+ "/repodata.json")
      = HttpResponse status_code text →
      ¬ (400 ≤ status_code < 600) →
      json_loads w text = None →
      worker_run w session timestamp output_config channel subdir
        (request_trace channel subdir, Err JSONDecodeError)
  | WorkerMalformed status_code text input_repodata e :
      http_get w session (url_prefix channel subdir +:+ "/repodata.json")
      = HttpResponse status_code text →
      ¬ (400 ≤ status_code < 600) →
      json_loads w text = Some input_repodata →
      cleanup_unneeded_info (<[fresh (dom (∅ : heap)) := input_repodata]> ∅)
        (fresh (dom (∅ : heap))) (trim_keys output_config) = Err e →
      worker_run w session timestamp output_config channel subdir
        (request_trace channel subdir, Err e)
  | WorkerNoDirectory input_repodata output_repodata :
      worker_document w session output_config channel subdir
        input_repodata output_repodata →
      io_fails w (output_dir output_config channel subdir) = true →
      worker_run w session timestamp output_config channel subdir
        (request_trace channel subdir,
         Err (OSError (output_dir output_config channel subdir)))
  | WorkerNoTimeFile input_repodata output_repodata :
      worker_document w session output_config channel subdir
        input_repodata output_repodata →
      io_fails w (output_dir output_config channel subdir) = false →
      io_fails w (output_file_path output_config channel subdir +:+ ".time")
      = true →
      worker_run w session timestamp output_config channel subdir
        (take 4 (success_trace output_config timestamp channel subdir ""),
         Err (OSError (output_file_path output_config channel subdir
                       +:+ ".time")))
  | WorkerNoArtifact input_repodata output_repodata :
      worker_document w session output_config channel subdir
        input_repodata output_repodata →
      io_fails w (output_dir output_config channel subdir) = false →
      io_fails w (output_file_path output_config channel subdir +:+ ".time")
      = false →
      io_fails w (output_file_path output_config channel subdir) = true →
      worker_run w session timestamp output_config channel subdir
        (take 6 (success_trace output_config timestamp channel subdir ""),
         Err (OSError (output_file_path output_config channel subdir)))
  | WorkerWritten input_repodata output_repodata :
      worker_document w session output_config channel subdir
        input_repodata output_repodata →
      io_fails w (output_dir output_config channel subdir) = false →
      io_fails w (output_file_path output_config channel subdir +:+ ".time")
      = false →
      io_fails w (output_file_path output_config channel subdir) = false →
      worker_run w session timestamp output_config channel subdir
        (success_trace output_config timestamp channel subdir
           (json_dump w output_repodata (indent output_config)
              (separators output_config)),
         Ok (channel, subdir, true)).

(** The sample world in which the artifact of
    [https://example.org/chan/noarch] cannot be opened for writing, while its
    directory and its companion can. *)
Definition read_only_artifact_world : world := {|
  ntp_request := ntp_request sample_world;
  utcoffset := utcoffset sample_world;
  new_session := new_session sample_world;
  http_get := http_get sample_world;
  json_loads := json_loads sample_world;
  json_dump := json_dump sample_world;
  io_fails := λ path,
    bool_decide
      (path = "out/https%3A%2F/example.org/chan/noarch/repodata.json");
  completion := completion sample_world;
|}.

(** The sample world in which every response parses to the malformed
    document. *)
Definition malformed_world : world := {|
  ntp_request := ntp_request sample_world;
  utcoffset := utcoffset sample_world;
  new_session := new_session sample_world;
  http_get := http_get sample_world;
  json_loads := λ _, Some malformed_repodata;
  json_dump := json_dump sample_world;
  io_fails := io_fails sample_world;
  completion := completion sample_world;
|}.

(** The sample configuration without [--trim]. *)
Definition untrimmed_config : OutputConfig :=
  {| output_root := "out"; indent := 0; separators := (",", ":");
     trim_keys := [] |}.

(** ** Reading an output path back *)

Definition hex_value (c : ascii) : N :=
  let n := N_of_ascii c in
  if (n <? 58)%N then (n - 48)%N else (n - 55)%N.


(** Three slashes in a row. *)
Fixpoint has_triple_slash (s : string) : bool :=
  match s with
  | "" => false
  | String c rest =>
      match rest with
      | String c' (String c'' _) =>
          bool_decide (c = "/"%char) && bool_decide (c' = "/"%char)
          && bool_decide (c'' = "/"%char)
          || has_triple_slash rest
      | _ => false
      end
  end.

Definition starts_with_slash (s : string) : bool :=
  match s with
  | String c _ => bool_decide (c = "/"%char)
  | "" => false
  end.

(** ** The command line *)

Definition _DEFAULT_CHANNELS : list string :=
  [ "https://conda.anaconda.org/bioconda";
    "https://conda.anaconda.org/conda-forge";
    "https://repo.anaconda.com/pkgs/main";
    "https://repo.anaconda.com/pkgs/free";
    "https://repo.anaconda.com/pkgs/r" ].

Definition _DEFAULT_SUBDIRS : list string :=
  [ "noarch"; "linux-64"; "linux-aarch64"; "linux-ppc64le"; "osx-64";
    "osx-arm64"; "win-64" ].

(** The sequences of strings that the parser handles are objects with an
    identity: the defaults are tuples, and the action builds lists and
    appends to them in place. *)
Inductive pyobj : Type :=
  | PyTuple (items : list string)
  | PyList (items : list string).

Inductive pyref : Type :=
  | PyNone
  | PyRef (l : loc).

Global Instance pyref_eq_dec : EqDecision pyref.
Proof. solve_decision. Defined.

Abbreviation objects := (gmap positive pyobj).

(** [AppendDefaultAction.__call__], for the action whose default is
    [self_default]: [items] is what [getattr(namespace, self.dest, None)]
    gave, and the location returned is what [setattr] stores.  A tuple has
    no [append]. *)
Definition AppendDefaultAction_call (self_default : pyref) (h : objects)
    (items : pyref) (values : string) : result (objects * loc) :=
  if bool_decide (items = self_default ∨ items = PyNone) then
    let items := fresh (dom h) in
    Ok (<[items := PyList [values]]> h, items)
  else
    match items with
    | PyRef l =>
        match h !! l with
        | Some (PyList old) => Ok (<[l := PyList (old ++ [values])]> h, l)
        | Some (PyTuple _) => Err AttributeError
        | None => Err InvalidReference
        end
    | PyNone => Err InvalidReference
    end.

(** The attributes of the namespace of this parser. *)
Module Namespace.
Record t : Type := {
  channel : loc;
  subdirs : loc;
  output : string;
  indent : Z;
  separators : string * string;
  trim : bool;
  trim_keys : loc;
  log_level : string;
}.
End Namespace.

(** The values that [--log-level] accepts. *)
Inductive log_choice : Type :=
  | ChoiceDebug | ChoiceInfo | ChoiceWarning | ChoiceError | ChoiceCritical.

Definition choice_name (choice : log_choice) : string :=
  match choice with
  | ChoiceDebug => "debug"
  | ChoiceInfo => "info"
  | ChoiceWarning => "warning"
  | ChoiceError => "error"
  | ChoiceCritical => "critical"
  end.

(** One use of an option on a command line that the parser accepts, with its
    value converted ([--indent] takes an [int], [--log-level] one of its
    choices).  [--separators] is left out: its value would be a string where
    [OutputConfig] has a pair. *)
Inductive option_use : Type :=
  | UseChannel (value : string)
  | UseSubdir (value : string)
  | UseOutput (value : string)
  | UseIndent (value : Z)
  | UseTrim
  | UseTrimKey (value : string)
  | UseLogLevel (value : log_choice).

Global Instance log_choice_eq_dec : EqDecision log_choice.
Proof. solve_decision. Defined.

Global Instance option_use_eq_dec : EqDecision option_use.
Proof. solve_decision. Defined.

(** The parser: the objects its defaults refer to, and the namespace that
    [parse_args] starts from, which holds the default of every option. *)
Record ArgumentParser : Type := {
  parser_objects : objects;
  parser_defaults : Namespace.t;
}.

(** [cwd] is what [os.getcwd()] returns. *)
Definition get_argument_parser (cwd : string) : ArgumentParser :=
  {| parser_objects :=
       <[1%positive := PyTuple _DEFAULT_CHANNELS]>
       (<[2%positive := PyTuple _DEFAULT_SUBDIRS]>
        (<[3%positive := PyTuple default_trim_keys]> ∅));
     parser_defaults :=
       {| Namespace.channel := 1%positive;
          Namespace.subdirs := 2%positive;
          Namespace.output := cwd +:+ "/repodata";
          Namespace.indent := 0;
          Namespace.separators := (",", ":");
          Namespace.trim := false;
          Namespace.trim_keys := 3%positive;
          Namespace.log_level := "info" |} |}.

(** What the parser does at one use of an option: it calls the action of the
    option on the namespace. *)
Definition take_option (parser : ArgumentParser) (h : objects)
    (namespace : Namespace.t) (use : option_use)
    : result (objects * Namespace.t) :=
  let defaults := parser_defaults parser in
  match use with
  | UseChannel value =>
      try (h', items) ⇐ AppendDefaultAction_call
                          (PyRef (Namespace.channel defaults)) h
                          (PyRef (Namespace.channel namespace)) value in
      Ok (h', {| Namespace.channel := items;
                 Namespace.subdirs := Namespace.subdirs namespace;
                 Namespace.output := Namespace.output namespace;
                 Namespace.indent := Namespace.indent namespace;
                 Namespace.separators := Namespace.separators namespace;
                 Namespace.trim := Namespace.trim namespace;
                 Namespace.trim_keys := Namespace.trim_keys namespace;
                 Namespace.log_level := Namespace.log_level namespace |})
  | UseSubdir value =>
      try (h', items) ⇐ AppendDefaultAction_call
                          (PyRef (Namespace.subdirs defaults)) h
                          (PyRef (Namespace.subdirs namespace)) value in
      Ok (h', {| Namespace.channel := Namespace.channel namespace;
                 Namespace.subdirs := items;
                 Namespace.output := Namespace.output namespace;
                 Namespace.indent := Namespace.indent namespace;
                 Namespace.separators := Namespace.separators namespace;
                 Namespace.trim := Namespace.trim namespace;
                 Namespace.trim_keys := Namespace.trim_keys namespace;
                 Namespace.log_level := Namespace.log_level namespace |})
  | UseOutput value =>
      Ok (h, {| Namespace.channel := Namespace.channel namespace;
                Namespace.subdirs := Namespace.subdirs namespace;
                Namespace.output := value;
                Namespace.indent := Namespace.indent namespace;
                Namespace.separators := Namespace.separators namespace;
                Namespace.trim := Namespace.trim namespace;
                Namespace.trim_keys := Namespace.trim_keys namespace;
                Namespace.log_level := Namespace.log_level namespace |})
  | UseIndent value =>
      Ok (h, {| Namespace.channel := Namespace.channel namespace;
                Namespace.subdirs := Namespace.subdirs namespace;
                Namespace.output := Namespace.output namespace;
                Namespace.indent := value;
                Namespace.separators := Namespace.separators namespace;
                Namespace.trim := Namespace.trim namespace;
                Namespace.trim_keys := Namespace.trim_keys namespace;
                Namespace.log_level := Namespace.log_level namespace |})
  | UseTrim =>
      Ok (h, {| Namespace.channel := Namespace.channel namespace;
                Namespace.subdirs := Namespace.subdirs namespace;
                Namespace.output := Namespace.output namespace;
                Namespace.indent := Namespace.indent namespace;
                Namespace.separators := Namespace.separators namespace;
                Namespace.trim := true;
                Namespace.trim_keys := Namespace.trim_keys namespace;
                Namespace.log_level := Namespace.log_level namespace |})
  | UseTrimKey value =>
      try (h', items) ⇐ AppendDefaultAction_call
                          (PyRef (Namespace.trim_keys defaults)) h
                          (PyRef (Namespace.trim_keys namespace)) value in
      Ok (h', {| Namespace.channel := Namespace.channel namespace;
                 Namespace.subdirs := Namespace.subdirs namespace;
                 Namespace.output := Namespace.output namespace;
                 Namespace.indent := Namespace.indent namespace;
                 Namespace.separators := Namespace.separators namespace;
                 Namespace.trim := Namespace.trim namespace;
                 Namespace.trim_keys := items;
                 Namespace.log_level := Namespace.log_level namespace |})
  | UseLogLevel value =>
      Ok (h, {| Namespace.channel := Namespace.channel namespace;
                Namespace.subdirs := Namespace.subdirs namespace;
                Namespace.output := Namespace.output namespace;
                Namespace.indent := Namespace.indent namespace;
                Namespace.separators := Namespace.separators namespace;
                Namespace.trim := Namespace.trim namespace;
                Namespace.trim_keys := Namespace.trim_keys namespace;
                Namespace.log_level := choice_name value |})
  end.

(** [parser.parse_args(argv)]: the options are taken in the order of the
    command line. *)
Fixpoint take_options (parser : ArgumentParser) (h : objects)
    (namespace : Namespace.t) (argv : list option_use)
    : result (objects * Namespace.t) :=
  match argv with
  | [] => Ok (h, namespace)
  | use :: argv' =>
      try (h', namespace') ⇐ take_option parser h namespace use in
      take_options parser h' namespace' argv'
  end.

Definition ArgumentParser_parse_args (parser : ArgumentParser)
    (argv : list option_use) : result (objects * Namespace.t) :=
  take_options parser (parser_objects parser) (parser_defaults parser) argv.

(** [tuple(map(str, items))] and [set(items)] read the strings of a tuple or
    of a list. *)
Definition strings_of (h : objects) (items : loc) : result (list string) :=
  match h !! items with
  | Some (PyTuple strings) | Some (PyList strings) => Ok strings
  | None => Err InvalidReference
  end.

(** [str.upper] on the letters of ASCII. *)
Definition ascii_upper (c : ascii) : ascii :=
  let n := N_of_ascii c in
  if ((97 <=? n) && (n <=? 122))%N then ascii_of_N (n - 32) else c.

Fixpoint str_upper (s : string) : string :=
  match s with
  | "" => ""
  | String c rest => String (ascii_upper c) (str_upper rest)
  end.

(** [set(args.trim_keys)] is kept as the list of its members, each once. *)
Definition parse_args (parser : ArgumentParser) (argv : list option_use)
    : result (string * OutputConfig * list string * list string) :=
  try (h, args) ⇐ ArgumentParser_parse_args parser argv in
  try channels ⇐ strings_of h (Namespace.channel args) in
  try subdirs ⇐ strings_of h (Namespace.subdirs args) in
  try trim_keys ⇐ (if Namespace.trim args then
                     try keys ⇐ strings_of h (Namespace.trim_keys args) in
                     Ok (elements (list_to_set keys : gset string))
                   else Ok []) in
  let output_config :=
    {| output_root := Namespace.output args;
       indent := Namespace.indent args;
       separators := Namespace.separators args;
       trim_keys := trim_keys |} in
  let log_level := str_upper (Namespace.log_level args) in
  Ok (log_level, output_config, channels, subdirs).

(** [main]: the handler and the level of the logger decide which records are
    shown, not which are made, so the run is that of [fetch]. *)
Definition main (w : world) (cwd : string) (argv : list option_use)
    : result run :=
  let argument_parser := get_argument_parser cwd in
  try (log_level, output_config, channels, subdirs)
    ⇐ parse_args argument_parser argv in
  Ok (fetch w output_config channels subdirs).

(** The values of the uses of [--channel], [--subdir] and [--trim-key] on a
    command line, in order, and whether [--trim] is on it. *)
Definition channel_values (argv : list option_use) : list string :=
  omap (λ use, match use with UseChannel value => Some value | _ => None end)
    argv.

Definition subdir_values (argv : list option_use) : list string :=
  omap (λ use, match use with UseSubdir value => Some value | _ => None end)
    argv.

Definition trim_key_values (argv : list option_use) : list string :=
  omap (λ use, match use with UseTrimKey value => Some value | _ => None end)
    argv.

Definition has_trim (argv : list option_use) : bool :=
  bool_decide (UseTrim ∈ argv).

(** What an option with a default and a value list yields: the values given,
    or the default if there are none. *)
Definition values_or_default (given default : list string) : list string :=
  if decide (given = []) then default else given.

(** The attribute [items] of an action with the default object [default],
    after the values [given]: it still is the default, or it is a list of
    its own that holds the values. *)
Definition list_attribute (h : objects) (default items : loc)
    (given : list string) : Prop :=
  (given = [] ∧ items = default) ∨
  (given ≠ [] ∧ items ≠ default ∧ h !! items = Some (PyList given)).

(** The state of [parse_args] of the program's parser after the uses
    [seen]. *)
Record parsed (h : objects) (namespace : Namespace.t)
    (seen : list option_use) : Prop := {
  parsed_default_channels : h !! 1%positive = Some (PyTuple _DEFAULT_CHANNELS);
  parsed_default_subdirs : h !! 2%positive = Some (PyTuple _DEFAULT_SUBDIRS);
  parsed_default_trim_keys : h !! 3%positive = Some (PyTuple default_trim_keys);
  parsed_channel :
    list_attribute h 1%positive (Namespace.channel namespace)
      (channel_values seen);
  parsed_subdirs :
    list_attribute h 2%positive (Namespace.subdirs namespace)
      (subdir_values seen);
  parsed_trim_keys :
    list_attribute h 3%positive (Namespace.trim_keys namespace)
      (trim_key_values seen);
  parsed_channel_subdirs :
    Namespace.channel namespace ≠ Namespace.subdirs namespace;
  parsed_channel_trim_keys :
    Namespace.channel namespace ≠ Namespace.trim_keys namespace;
  parsed_subdirs_trim_keys :
    Namespace.subdirs namespace ≠ Namespace.trim_keys namespace;
  parsed_trim : Namespace.trim namespace = has_trim seen;
}.

(** * Properties *)

(** ** Trimming *)

Lemma trim_package_lookup (trim_keys : list string) (package : dict) (key : string) :
  trim_package trim_keys package !! key
  = if decide (key ∈ trim_keys) then None else package !! key.
Proof.
  unfold trim_package. case_decide as Hk.
  - apply map_lookup_filter_None. right. intros v _ Hn. by apply Hn.
  - destruct (package !! key) as [v|] eqn:Hv.
    + apply map_lookup_filter_Some. done.
    + apply map_lookup_filter_None. by left.
Qed.

Lemma trim_package_trimmed (trim_keys : list string) (package : dict) :
  trimmed_of trim_keys package (trim_package trim_keys package).
Proof.
  split; intros key Hk; rewrite trim_package_lookup; by case_decide.
Qed.

Lemma trim_package_idemp (trim_keys : list string) (package : dict) :
  trim_package trim_keys (trim_package trim_keys package)
  = trim_package trim_keys package.
Proof.
  apply map_eq. intros key. rewrite !trim_package_lookup. by case_decide.
Qed.

Lemma trim_entry_idemp (trim_keys : list string) (package : json) :
  trim_entry trim_keys (trim_entry trim_keys package) = trim_entry trim_keys package.
Proof. destruct package; simpl; try done. by rewrite trim_package_idemp. Qed.

Lemma trim_entry_is_JObject (trim_keys : list string) (package : json) :
  is_JObject package → is_JObject (trim_entry trim_keys package).
Proof. by destruct package. Qed.

Lemma trim_packages_wf (trim_keys : list string) (v : json) :
  packages_wf v →
  ∃ entries, v = JObject entries ∧
    trim_packages trim_keys v = Ok (JObject (trim_entry trim_keys <$> entries)) ∧
    packages_wf (JObject (trim_entry trim_keys <$> entries)).
Proof.
  destruct v as [| | | | |entries]; try done. simpl. intros Hall.
  exists entries. split; [done|]. split.
  - by case_decide.
  - intros f p. rewrite lookup_fmap. intros Hp.
    destruct (entries !! f) as [q|] eqn:Hq; simplify_eq/=.
    apply trim_entry_is_JObject. by apply (Hall f).
Qed.

Lemma elem_of_packages_keys (key : string) :
  key ∈ packages_keys ↔ key = "packages" ∨ key = "packages.conda".
Proof.
  unfold packages_keys. rewrite !elem_of_cons, elem_of_nil. tauto.
Qed.

Lemma repodata_wf_lookup (d : dict) (pk : string) (v : json) :
  repodata_wf d → pk ∈ packages_keys → d !! pk = Some v → packages_wf v.
Proof.
  unfold repodata_wf. rewrite Forall_forall. intros Hwf Hpk Hv.
  specialize (Hwf pk Hpk). by rewrite Hv in Hwf.
Qed.

Lemma cleanup_unneeded_info_empty (h : heap) (repodata : loc) :
  cleanup_unneeded_info h repodata [] = Ok (h, repodata).
Proof. done. Qed.

Lemma cleanup_unneeded_info_wf (h : heap) (repodata : loc) (d : dict)
    (trim_keys : list string) :
  trim_keys ≠ [] → h !! repodata = Some d → repodata_wf d →
  ∃ d', cleanup_unneeded_info h repodata trim_keys
        = Ok (<[fresh (dom h) := d']> h, fresh (dom h)) ∧
        ∀ key, d' !! key = trimmed_lookup trim_keys d key.
Proof.
  intros Hne Hr Hwf. unfold cleanup_unneeded_info.
  rewrite bool_decide_eq_false_2 by done. rewrite Hr. simpl.
  assert (Hp : ∀ pk v, pk ∈ packages_keys → d !! pk = Some v →
    ∃ entries, v = JObject entries ∧
      trim_packages trim_keys v = Ok (JObject (trim_entry trim_keys <$> entries))).
  { intros pk v Hpk Hv. destruct (trim_packages_wf trim_keys v) as (e & ? & ? & _);
      [by eapply repodata_wf_lookup|]. eauto. }
  pose proof (proj2 (elem_of_packages_keys "packages") (or_introl eq_refl)) as Hin1.
  pose proof (proj2 (elem_of_packages_keys "packages.conda") (or_intror eq_refl)) as Hin2.
  destruct (d !! "packages") as [v1|] eqn:H1;
    [destruct (Hp "packages" v1) as (e1 & -> & ->); [done|done|]|];
  unfold cleanup_step; simpl;
  (destruct (d !! "packages.conda") as [v2|] eqn:H2;
    [destruct (Hp "packages.conda" v2) as (e2 & -> & ->); [done|done|]|]);
  simpl; rewrite ?alter_insert_eq; eexists; (split; [reflexivity|]);
  intros key; unfold trimmed_lookup;
  (destruct (decide (key = "packages")) as [->|];
    [rewrite decide_True by done
    |destruct (decide (key = "packages.conda")) as [->|];
      [rewrite decide_True by done
      |rewrite decide_False by (rewrite elem_of_packages_keys; tauto)]]);
  repeat (rewrite lookup_insert_eq || rewrite lookup_insert_ne by done);
  rewrite ?H1, ?H2; done.
Qed.

Lemma trim_value_idemp (trim_keys : list string) (v : json) :
  trim_value trim_keys (trim_value trim_keys v) = trim_value trim_keys v.
Proof.
  destruct v as [| | | | |entries]; try done. simpl. f_equal.
  rewrite <- map_fmap_compose. apply map_fmap_ext. intros f p _.
  apply trim_entry_idemp.
Qed.

Lemma trimmed_lookup_idemp (trim_keys : list string) (d d' : dict) :
  (∀ key, d' !! key = trimmed_lookup trim_keys d key) →
  ∀ key, trimmed_lookup trim_keys d' key = trimmed_lookup trim_keys d key.
Proof.
  intros Hd key. unfold trimmed_lookup. case_decide as Hk.
  - rewrite Hd. unfold trimmed_lookup. rewrite decide_True by done.
    destruct (d !! key); simpl; [|done]. by rewrite trim_value_idemp.
  - rewrite Hd. unfold trimmed_lookup. by rewrite decide_False.
Qed.

Lemma trimmed_lookup_wf (trim_keys : list string) (d d' : dict) :
  repodata_wf d → (∀ key, d' !! key = trimmed_lookup trim_keys d key) →
  repodata_wf d'.
Proof.
  intros Hwf Hd. unfold repodata_wf. rewrite Forall_forall. intros pk Hpk.
  rewrite Hd. unfold trimmed_lookup. rewrite decide_True by done.
  destruct (d !! pk) as [v|] eqn:Hv; [|done]. simpl.
  destruct (trim_packages_wf trim_keys v) as (e & -> & _ & Hw);
    [by eapply repodata_wf_lookup|done].
Qed.

Lemma trim_package_nil (package : dict) : trim_package [] package = package.
Proof.
  apply map_eq. intros key. rewrite trim_package_lookup.
  rewrite decide_False; [done|]. apply not_elem_of_nil.
Qed.

Lemma trim_value_nil (v : json) : packages_wf v → trim_value [] v = v.
Proof.
  destruct v as [| | | | |entries]; try done. simpl. intros Hall. f_equal.
  apply map_eq. intros f. rewrite lookup_fmap.
  destruct (entries !! f) as [p|] eqn:Hp; [|done]. simpl. f_equal.
  specialize (Hall f p Hp). destruct p; try done. simpl.
  by rewrite trim_package_nil.
Qed.

(** What [cleanup_unneeded_info] does on a repodata document, both branches at
    once: it returns, the result holds the trimmed document, the input object
    is left as it was, and with no trim keys nothing is allocated. *)
Lemma cleanup_unneeded_info_spec (h : heap) (repodata : loc) (d : dict)
    (trim_keys : list string) :
  h !! repodata = Some d → repodata_wf d →
  ∃ h' out d',
    cleanup_unneeded_info h repodata trim_keys = Ok (h', out) ∧
    h' !! out = Some d' ∧
    (∀ key, d' !! key = trimmed_lookup trim_keys d key) ∧
    h' !! repodata = Some d.
Proof.
  intros Hr Hwf. destruct (decide (trim_keys = [])) as [->|Hne].
  - exists h, repodata, d. split; [done|]. split; [done|]. split; [|done].
    intros key. unfold trimmed_lookup. case_decide as Hk; [|done].
    destruct (d !! key) as [v|] eqn:Hv; [|done]. simpl.
    rewrite trim_value_nil; [done|]. by eapply repodata_wf_lookup.
  - destruct (cleanup_unneeded_info_wf h repodata d trim_keys) as (d' & Hc & Hd');
      [done..|].
    eexists _, _, d'. split; [exact Hc|]. split; [apply lookup_insert_eq|].
    split; [done|]. rewrite lookup_insert_ne; [done|].
    intros Heq. apply (is_fresh (dom h)). rewrite Heq.
    apply elem_of_dom. by exists d.
Qed.

Lemma trim_value_entries (trim_keys : list string) (entries : dict) :
  map_Forall (λ _ package, is_JObject package) entries →
  ∃ entries',
    trim_value trim_keys (JObject entries) = JObject entries' ∧
    dom entries' = dom entries ∧
    ∀ filename p, entries !! filename = Some p →
      ∃ package package',
        p = JObject package ∧
        entries' !! filename = Some (JObject package') ∧
        trimmed_of trim_keys package package'.
Proof.
  intros Hall. simpl. eexists. split; [done|]. split; [apply dom_fmap_L|].
  intros filename p Hp. rewrite lookup_fmap, Hp. simpl.
  specialize (Hall filename p Hp). destruct p as [| | | | |package]; try done.
  exists package, (trim_package trim_keys package).
  split; [done|]. split; [done|]. apply trim_package_trimmed.
Qed.

(** C3: on every repodata document and for every trim key list,
    [cleanup_unneeded_info] returns a document that has [packages] and
    [packages.conda] exactly where the input has them, with the same file
    names, and in which the entry of every file name is the entry of the
    input without the keys of the trim list: it has no key of the trim list
    and, at every other key, the value the input has there, present or
    absent.  Every other top-level key has the value of the input.  Applied
    to its own result the function returns an equal document. *)
Theorem cleanup_trims_package_entries (h : heap) (repodata : loc) (d : dict)
    (trim_keys : list string) :
  h !! repodata = Some d → repodata_wf d →
  ∃ h' out d',
    cleanup_unneeded_info h repodata trim_keys = Ok (h', out) ∧
    h' !! out = Some d' ∧
    (∀ pk, pk ∈ packages_keys →
      match d !! pk with
      | None => d' !! pk = None
      | Some v =>
          ∃ entries entries',
            v = JObject entries ∧ d' !! pk = Some (JObject entries') ∧
            dom entries' = dom entries ∧
            ∀ filename p, entries !! filename = Some p →
              ∃ package package',
                p = JObject package ∧
                entries' !! filename = Some (JObject package') ∧
                trimmed_of trim_keys package package'
      end) ∧
    (∀ key, key ∉ packages_keys → d' !! key = d !! key) ∧
    (∃ h'' out',
      cleanup_unneeded_info h' out trim_keys = Ok (h'', out') ∧
      h'' !! out' = Some d').
Proof.
  intros Hr Hwf.
  destruct (cleanup_unneeded_info_spec h repodata d trim_keys)
    as (h' & out & d' & Hc & Hout & Hd' & _); [done..|].
  exists h', out, d'. split; [done|]. split; [done|]. split; [|split].
  - intros pk Hpk. rewrite Hd'. unfold trimmed_lookup.
    rewrite decide_True by done.
    destruct (d !! pk) as [v|] eqn:Hv; [|done]. simpl.
    pose proof (repodata_wf_lookup d pk v Hwf Hpk Hv) as Hv_wf.
    destruct v as [| | | | |entries]; try done.
    destruct (trim_value_entries trim_keys entries Hv_wf)
      as (entries' & -> & Hdom & Hall).
    by exists entries, entries'.
  - intros key Hkey. rewrite Hd'. unfold trimmed_lookup.
    by rewrite decide_False.
  - destruct (cleanup_unneeded_info_spec h' out d' trim_keys)
      as (h'' & out' & d'' & Hc' & Hout' & Hd'' & _);
      [done|by eapply trimmed_lookup_wf|].
    exists h'', out'. split; [done|]. rewrite Hout'. f_equal.
    apply map_eq. intros key. rewrite Hd'', Hd'.
    by apply trimmed_lookup_idemp.
Qed.

Lemma cleanup_trims_package_entries_witness :
  ∃ h' out d',
    cleanup_unneeded_info sample_heap 1%positive ["md5"; "subdir"] = Ok (h', out) ∧
    h' !! out = Some d' ∧
    (∀ pk, pk ∈ packages_keys →
      match sample_repodata !! pk with
      | None => d' !! pk = None
      | Some v =>
          ∃ entries entries',
            v = JObject entries ∧ d' !! pk = Some (JObject entries') ∧
            dom entries' = dom entries ∧
            ∀ filename p, entries !! filename = Some p →
              ∃ package package',
                p = JObject package ∧
                entries' !! filename = Some (JObject package') ∧
                trimmed_of ["md5"; "subdir"] package package'
      end) ∧
    (∀ key, key ∉ packages_keys → d' !! key = sample_repodata !! key) ∧
    (∃ h'' out',
      cleanup_unneeded_info h' out ["md5"; "subdir"] = Ok (h'', out') ∧
      h'' !! out' = Some d').
Proof.
  apply (cleanup_trims_package_entries sample_heap 1%positive sample_repodata).
  - reflexivity.
  - apply (bool_decide_unpack _). vm_compute. exact I.
Defined.

(** C9: with no trim keys [cleanup_unneeded_info] returns the location it was
    given and allocates nothing; and for every trim key list the document it
    returns for a repodata document has, at every top-level key other than
    [packages] and [packages.conda], the value of the input, which itself is
    left unchanged in the heap. *)
Theorem cleanup_passes_top_level_through :
  (∀ (h : heap) (repodata : loc),
     cleanup_unneeded_info h repodata [] = Ok (h, repodata)) ∧
  (∀ (h : heap) (repodata : loc) (d : dict) (trim_keys : list string),
     h !! repodata = Some d → repodata_wf d →
     ∃ h' out d',
       cleanup_unneeded_info h repodata trim_keys = Ok (h', out) ∧
       h' !! out = Some d' ∧
       h' !! repodata = Some d ∧
       ∀ key, key ∉ packages_keys → d' !! key = d !! key).
Proof.
  split; [done|]. intros h repodata d trim_keys Hr Hwf.
  destruct (cleanup_unneeded_info_spec h repodata d trim_keys)
    as (h' & out & d' & Hc & Hout & Hd' & Hsame); [done..|].
  exists h', out, d'. repeat (split; [done|]).
  intros key Hk. rewrite Hd'. unfold trimmed_lookup. by rewrite decide_False.
Qed.

Lemma cleanup_passes_top_level_through_witness :
  ∃ h' out d',
    cleanup_unneeded_info sample_heap 1%positive ["md5"; "subdir"] = Ok (h', out) ∧
    h' !! out = Some d' ∧
    h' !! 1%positive = Some sample_repodata ∧
    ∀ key, key ∉ packages_keys → d' !! key = sample_repodata !! key.
Proof.
  apply (proj2 cleanup_passes_top_level_through sample_heap 1%positive sample_repodata).
  - reflexivity.
  - apply (bool_decide_unpack _). vm_compute. exact I.
Defined.

(** ** Strings and paths *)

Lemma chars_app (a b : string) : chars (a +:+ b) = chars a ++ chars b.
Proof.
  induction a as [|c a IH]; [done|].
  change (String c a +:+ b) with (String c (a +:+ b)). cbn. by rewrite IH.
Qed.

Lemma string_app_assoc (a b c : string) : (a +:+ b) +:+ c = a +:+ (b +:+ c).
Proof.
  induction a as [|x a IH]; [done|].
  change ((String x a +:+ b) +:+ c) with (String x ((a +:+ b) +:+ c)).
  by rewrite IH.
Qed.

Lemma has_suffix_app (p suffix : string) : has_suffix suffix (p +:+ suffix).
Proof. exists (chars p). apply chars_app. Qed.

(** A path that ends in [.time] does not end in [/repodata.json]. *)
Lemma time_file_not_repodata_json (path : string) :
  is_time_file path → ¬ is_repodata_json path.
Proof.
  intros [k1 H1] [k2 H2]. rewrite H1 in H2.
  apply (f_equal last) in H2.
  change (chars "/repodata.json") with (chars "/repodata.jso" ++ ["n"%char]) in H2.
  change (chars ".time") with (chars ".tim" ++ ["e"%char]) in H2.
  rewrite !app_assoc, !last_snoc in H2. discriminate.
Qed.

Lemma output_file_path_is_repodata_json (output_config : OutputConfig)
    (channel subdir : string) :
  is_repodata_json (output_file_path output_config channel subdir).
Proof. apply has_suffix_app. Qed.

Lemma root_time_path_is_time_file (output_config : OutputConfig) :
  is_time_file (root_time_path output_config).
Proof.
  unfold root_time_path. change "/.time" with ("/" +:+ ".time").
  rewrite <- string_app_assoc. apply has_suffix_app.
Qed.

(** The run-level timestamp file is no file of a target directory. *)
Lemma root_time_path_not_target (output_config : OutputConfig)
    (channel subdir : string) :
  output_file_path output_config channel subdir ≠ root_time_path output_config ∧
  output_file_path output_config channel subdir +:+ ".time"
    ≠ root_time_path output_config.
Proof.
  split.
  - intros H.
    apply (time_file_not_repodata_json (root_time_path output_config)).
    + apply root_time_path_is_time_file.
    + rewrite <- H. apply output_file_path_is_repodata_json.
  - unfold root_time_path, output_file_path, output_dir.
    rewrite !string_app_assoc. intros H. apply (inj _) in H.
    apply (f_equal (λ s, length (chars s))) in H.
    rewrite !chars_app, !length_app in H. cbn in H. lia.
Qed.

(** ** The worker's trace *)

Local Ltac prefix_of_success :=
  unfold success_trace; simpl; eexists; simpl; reflexivity.

(** The worker has raised after a part of its events. *)
Local Ltac raised :=
  right; right; eexists; split; [reflexivity|prefix_of_success].

Lemma fetch_repodata_cases (w : world) (session : Session) (timestamp : string)
    (output_config : OutputConfig) (channel subdir : string) :
  let r := fetch_repodata w session timestamp output_config channel subdir in
  (r = (not_found_trace channel subdir, Ok (channel, subdir, false))) ∨
  (∃ text, r = (success_trace output_config timestamp channel subdir text,
                Ok (channel, subdir, true))) ∨
  (∃ e, r.2 = Err e ∧
     r.1 `prefix_of` success_trace output_config timestamp channel subdir "").
Proof.
  unfold fetch_repodata, raise_for_status, makedirs, write_file,
    bind, emit, ret, raise, lift.
  simpl.
  destruct (http_get w session _) as [status_code text|]; simpl; [|raised].
  destruct ((400 <=? status_code) && (status_code <? 600)).
  { destruct (status_code =? 404); simpl; [by left|raised]. }
  destruct (json_loads w text) as [input_repodata|]; simpl; [|raised].
  destruct (cleanup_unneeded_info _ _ _) as [[h out]|e]; simpl; [|raised].
  destruct (h !! out) as [output_repodata|]; simpl; [|raised].
  destruct (io_fails w (output_dir _ _ _)); simpl; [raised|].
  destruct (io_fails w (_ +:+ ".time")); simpl; [raised|].
  destruct (io_fails w _); simpl; [raised|].
  right. left. eexists. reflexivity.
Qed.

(** ** What a worker can raise *)

Lemma trim_packages_raises (trim_keys : list string) (v : json) (e : exn) :
  trim_packages trim_keys v = Err e → e = AttributeError.
Proof.
  destruct v; simpl; try by intros [= <-]. case_decide; [done|by intros [= <-]].
Qed.

(** On a live location [cleanup_unneeded_info] returns a live location or
    raises [AttributeError]. *)
Lemma cleanup_unneeded_info_live (h : heap) (repodata : loc) (d : dict)
    (trim_keys : list string) :
  h !! repodata = Some d →
  match cleanup_unneeded_info h repodata trim_keys with
  | Ok (h', out) => is_Some (h' !! out)
  | Err e => e = AttributeError
  end.
Proof.
  intros Hr. unfold cleanup_unneeded_info. case_bool_decide; [by rewrite Hr|].
  rewrite Hr. simpl. unfold cleanup_step. simpl.
  destruct (d !! "packages") as [v1|];
    [destruct (trim_packages trim_keys v1) as [t1|e1] eqn:H1;
       [|apply trim_packages_raises in H1]|];
    simpl;
    (destruct (d !! "packages.conda") as [v2|];
      [destruct (trim_packages trim_keys v2) as [t2|e2] eqn:H2;
         [|apply trim_packages_raises in H2]|]);
    simpl; try done;
    rewrite ?lookup_alter_is_Some, lookup_insert_is_Some; by left.
Qed.

(** A worker raises nothing but what the request, the status, the parser, the
    trimming of a malformed document or the file system raises. *)
Lemma fetch_repodata_raises (w : world) (session : Session) (timestamp : string)
    (output_config : OutputConfig) (channel subdir : string) (e : exn) :
  (fetch_repodata w session timestamp output_config channel subdir).2 = Err e →
  match e with
  | RequestFailed | HTTPError _ | JSONDecodeError | AttributeError | OSError _ =>
      True
  | FetchError _ _ | NTPUncaught | InvalidReference => False
  end.
Proof.
  unfold fetch_repodata, raise_for_status, makedirs, write_file,
    bind, emit, ret, raise, lift. simpl.
  destruct (http_get w session _) as [status_code text|]; simpl;
    [|by intros [= <-]].
  destruct ((400 <=? status_code) && (status_code <? 600)).
  { destruct (status_code =? 404); simpl; [done|by intros [= <-]]. }
  destruct (json_loads w text) as [input_repodata|]; simpl; [|by intros [= <-]].
  pose proof (cleanup_unneeded_info_live
    (<[fresh (dom (∅ : heap)) := input_repodata]> ∅) (fresh (dom (∅ : heap)))
    input_repodata (trim_keys output_config) (lookup_insert_eq _ _ _)) as Hlive.
  destruct (cleanup_unneeded_info _ _ _) as [[h out]|e']; simpl.
  2:{ intros [= <-]. by subst. }
  destruct Hlive as [output_repodata ->]. simpl.
  destruct (io_fails w (output_dir _ _ _)); simpl; [by intros [= <-]|].
  destruct (io_fails w (_ +:+ ".time")); simpl; [by intros [= <-]|].
  destruct (io_fails w _); simpl; [by intros [= <-]|done].
Qed.

(** ** The pool of futures *)

Lemma as_completed_Permutation {A : Type} (w : world) (futures : list A) :
  as_completed w futures ≡ₚ futures.
Proof.
  unfold as_completed. rewrite merge_sort_Permutation.
  rewrite fmap_imap.
  rewrite (imap_ext _ (const id)) by done.
  by rewrite imap_const, list_fmap_id.
Qed.

Lemma elem_of_targets (channels subdirs : list string) (channel subdir : string) :
  (channel, subdir) ∈ targets channels subdirs ↔
  channel ∈ channels ∧ subdir ∈ subdirs.
Proof.
  unfold targets. rewrite list_elem_of_bind. split.
  - intros (s & Hin & Hs). apply list_elem_of_bind in Hin as (c & Hin & Hc).
    apply list_elem_of_singleton in Hin. by simplify_eq.
  - intros [Hc Hs]. exists subdir. split; [|done].
    apply list_elem_of_bind. exists channel. split; [|done].
    by apply list_elem_of_singleton.
Qed.

(** A future that raised is re-raised by the loop, whatever its position. *)
Lemma collect_Err (results : list (result (string * string * bool)))
    (unfetched_channels : gset string) (e : exn) :
  Err e ∈ results →
  ∃ e', collect unfetched_channels results = Err e' ∧ Err e' ∈ results.
Proof.
  revert unfetched_channels.
  induction results as [|[[[c s] b]|e0] results IH]; intros u Hin.
  - by apply elem_of_nil in Hin.
  - apply elem_of_cons in Hin as [?|Hin]; [done|]. simpl.
    destruct (IH (if b then u ∖ {[c]} else u) Hin) as (e' & -> & Hin').
    exists e'. split; [done|]. by apply list_elem_of_further.
  - exists e0. split; [done|]. apply list_elem_of_here.
Qed.

(** When every future returned, the loop leaves exactly the channels that no
    successful outcome names. *)
Lemma collect_Ok (results : list (result (string * string * bool)))
    (unfetched_channels : gset string) :
  Forall is_Ok results →
  ∃ remaining, collect unfetched_channels results = Ok remaining ∧
    ∀ channel, channel ∈ remaining ↔
      channel ∈ unfetched_channels ∧
      ∀ subdir, Ok (channel, subdir, true) ∉ results.
Proof.
  revert unfetched_channels.
  induction results as [|[[[c s] b]|e0] results IH]; intros u Hall.
  - exists u. split; [done|]. intros channel. split; [|tauto].
    intros Hin. split; [done|]. intros subdir. apply not_elem_of_nil.
  - apply Forall_cons in Hall as [_ Hall]. simpl.
    destruct (IH (if b then u ∖ {[c]} else u) Hall) as (remaining & -> & Hleft).
    exists remaining. split; [done|]. intros channel. rewrite Hleft.
    setoid_rewrite not_elem_of_cons. destruct b.
    + rewrite elem_of_difference, not_elem_of_singleton. split.
      * intros [[Hu Hne] Hrest]. split; [done|]. intros subdir.
        split; [congruence|done].
      * intros [Hu Hrest]. split; [split; [done|]|].
        -- intros ->. by destruct (Hrest s) as [? _].
        -- intros subdir. by destruct (Hrest subdir).
    + split.
      * intros [Hu Hrest]. split; [done|]. intros subdir. split; [done|apply Hrest].
      * intros [Hu Hrest]. split; [done|]. intros subdir. apply Hrest.
  - by apply Forall_cons in Hall as [[] _].
Qed.

(** ** How [fetch] ends *)

Lemma fetch_clock_Err (w : world) (output_config : OutputConfig)
    (channels subdirs : list string) (e : exn) :
  (get_ntp_time w).2 = Err e →
  fetch w output_config channels subdirs
  = {| main_before := (get_ntp_time w).1; workers := []; main_after := [];
       outcome := Err e |}.
Proof. intros H. unfold fetch. by rewrite H. Qed.

Lemma fetch_clock_Ok (w : world) (output_config : OutputConfig)
    (channels subdirs : list string) (timestamp : string) :
  (get_ntp_time w).2 = Ok timestamp →
  let r := fetch w output_config channels subdirs in
  main_before r = (get_ntp_time w).1 ∧
  workers r = fst <$> (submit w (fetch_session w) timestamp output_config
                       <$> targets channels subdirs) ∧
  match collect (list_to_set channels)
          (pool_results w output_config channels subdirs timestamp) with
  | Err e => outcome r = Err e ∧ main_after r = []
  | Ok unfetched_channels =>
      if decide (unfetched_channels ≠ ∅) then
        outcome r
        = Err (FetchError "No repodata.json found for any subdir in channels %s ."
                 (Some unfetched_channels)) ∧
        main_after r = []
      else if io_fails w (root_time_path output_config) then
        outcome r = Err (OSError (root_time_path output_config)) ∧
        main_after r = []
      else
        outcome r = Ok tt ∧
        main_after r = [ EvOpen (root_time_path output_config);
                         EvWrite (root_time_path output_config)
                           (print_line timestamp) ]
  end.
Proof.
  intros H r. unfold r, fetch, pool_results. rewrite H. simpl.
  split; [done|]. split; [done|].
  destruct (collect _ _) as [u|e]; simpl; [|done].
  unfold write_file. destruct (decide (u ≠ ∅)); simpl; [done|].
  by destruct (io_fails w _).
Qed.

(** The main process writes nothing after the pool unless the call returns,
    and then it writes the timestamp file of the run. *)
Lemma fetch_main_after (w : world) (output_config : OutputConfig)
    (channels subdirs : list string) :
  let r := fetch w output_config channels subdirs in
  match outcome r with
  | Ok _ =>
      ∃ timestamp, (get_ntp_time w).2 = Ok timestamp ∧
        main_after r = [ EvOpen (root_time_path output_config);
                         EvWrite (root_time_path output_config)
                           (print_line timestamp) ]
  | Err _ => main_after r = []
  end.
Proof.
  simpl. destruct (get_ntp_time w).2 as [timestamp|e] eqn:Hclock.
  - destruct (fetch_clock_Ok w output_config channels subdirs timestamp Hclock)
      as (_ & _ & H).
    destruct (collect _ _) as [u|e]; [|by destruct H as [-> ->]].
    destruct (decide (u ≠ ∅)); [by destruct H as [-> ->]|].
    destruct (io_fails w _); destruct H as [-> ->]; [done|eauto].
  - by rewrite (fetch_clock_Err _ _ _ _ e Hclock).
Qed.

Lemma elem_of_pool_results (w : world) (output_config : OutputConfig)
    (channels subdirs : list string) (timestamp : string)
    (res : result (string * string * bool)) :
  res ∈ pool_results w output_config channels subdirs timestamp ↔
  ∃ channel subdir, channel ∈ channels ∧ subdir ∈ subdirs ∧
    res = (fetch_repodata w (fetch_session w) timestamp output_config
             channel subdir).2.
Proof.
  unfold pool_results. rewrite as_completed_Permutation, <- list_fmap_compose, list_elem_of_fmap.
  split.
  - intros ([c s] & -> & Hin). apply elem_of_targets in Hin as [??].
    by exists c, s.
  - intros (c & s & Hc & Hs & ->). exists (c, s). split; [done|].
    by apply elem_of_targets.
Qed.

(** A worker that raises makes the call raise what some worker raised. *)
Lemma fetch_worker_error (w : world) (output_config : OutputConfig)
    (channels subdirs : list string) (timestamp channel subdir : string)
    (e : exn) :
  (get_ntp_time w).2 = Ok timestamp →
  channel ∈ channels → subdir ∈ subdirs →
  (fetch_repodata w (fetch_session w) timestamp output_config channel subdir).2
  = Err e →
  ∃ e' channel' subdir',
    outcome (fetch w output_config channels subdirs) = Err e' ∧
    channel' ∈ channels ∧ subdir' ∈ subdirs ∧
    (fetch_repodata w (fetch_session w) timestamp output_config
       channel' subdir').2 = Err e'.
Proof.
  intros Hclock Hc Hs He.
  destruct (fetch_clock_Ok w output_config channels subdirs timestamp Hclock)
    as (_ & _ & H).
  assert (Hin : Err e ∈ pool_results w output_config channels subdirs timestamp).
  { apply elem_of_pool_results. exists channel, subdir. by rewrite He. }
  apply (collect_Err _ (list_to_set channels)) in Hin as (e' & Hcol & Hin).
  cbv zeta in H. rewrite Hcol in H. destruct H as [Hout _].
  apply elem_of_pool_results in Hin as (c' & s' & ? & ? & ?).
  by exists e', c', s'.
Qed.

Lemma fetch_repodata_echo (w : world) (session : Session) (timestamp : string)
    (output_config : OutputConfig) (channel subdir c s : string) (b : bool) :
  (fetch_repodata w session timestamp output_config channel subdir).2
  = Ok (c, s, b) →
  c = channel ∧ s = subdir.
Proof.
  destruct (fetch_repodata_cases w session timestamp output_config channel subdir)
    as [->|[[text ->]|(e & -> & _)]]; simpl; intros; by simplify_eq.
Qed.

(** The judgment of [fetch] when every worker has returned an outcome. *)
Lemma fetch_judgment (w : world)
    (output_config : OutputConfig) (channels subdirs : list string)
    (timestamp : string) :
  (get_ntp_time w).2 = Ok timestamp →
  Forall (λ target,
            is_Ok (submit w (fetch_session w) timestamp output_config target).2)
    (targets channels subdirs) →
  let failing channel :=
    channel ∈ channels ∧
    ∀ subdir, subdir ∈ subdirs →
      (fetch_repodata w (fetch_session w) timestamp output_config
         channel subdir).2 = Ok (channel, subdir, false) in
  let r := fetch w output_config channels subdirs in
  ((∃ msg arg, outcome r = Err (FetchError msg arg)) ↔ ∃ channel, failing channel) ∧
  (∀ msg arg, outcome r = Err (FetchError msg arg) →
     ∃ named : gset string,
       arg = Some named ∧ ∀ channel, channel ∈ named ↔ failing channel).
Proof.
  intros Hclock Hall failing r.
  destruct (fetch_clock_Ok w output_config channels subdirs timestamp Hclock)
    as (_ & _ & H). cbv zeta in H. fold r in H.
  set (results := pool_results w output_config channels subdirs timestamp) in *.
  assert (Hok : Forall is_Ok results).
  { apply Forall_forall. intros res Hres.
    apply elem_of_pool_results in Hres as (c & s & Hc & Hs & ->).
    rewrite Forall_forall in Hall. apply (Hall (c, s)). by apply elem_of_targets. }
  destruct (collect_Ok results (list_to_set channels) Hok) as (unfetched & Hcol & Hleft).
  rewrite Hcol in H.
  assert (Hfailing : ∀ channel, channel ∈ unfetched ↔ failing channel).
  { intros channel. rewrite Hleft, elem_of_list_to_set. unfold failing.
    split; intros [Hc Hrest]; (split; [done|]).
    - intros subdir Hs.
      destruct (fetch_repodata w (fetch_session w) timestamp output_config
                  channel subdir).2 as [[[c s] b]|e] eqn:Hres.
      + destruct (fetch_repodata_echo _ _ _ _ _ _ _ _ _ Hres) as [-> ->].
        destruct b; [|done]. exfalso. apply (Hrest subdir).
        apply elem_of_pool_results. exists channel, subdir. by rewrite Hres.
      + rewrite Forall_forall in Hall.
        specialize (Hall (channel, subdir)). unfold submit in Hall. simpl in Hall.
        rewrite Hres in Hall. exfalso. apply Hall. by apply elem_of_targets.
    - intros subdir Hin.
      apply elem_of_pool_results in Hin as (c & s & Hc' & Hs & Hres).
      symmetry in Hres.
      destruct (fetch_repodata_echo _ _ _ _ _ _ _ _ _ Hres) as [<- <-].
      rewrite (Hrest _ Hs) in Hres. discriminate. }
  destruct (decide (unfetched ≠ ∅)) as [Hne|Hempty].
  - destruct H as [Hout _]. rewrite Hout. split.
    + split; [|by eauto]. intros _.
      apply set_choose_L in Hne as [channel Hin]. exists channel. by apply Hfailing.
    + intros msg arg [= <- <-]. by exists unfetched.
  - assert (unfetched = ∅) as -> by (by destruct (decide (unfetched = ∅))).
    assert (Hnone : ¬ ∃ channel, failing channel).
    { intros [channel Hf]. apply Hfailing in Hf. by apply not_elem_of_empty in Hf. }
    destruct (io_fails w _); destruct H as [Hout _]; rewrite Hout;
      (split; [split; [by intros (? & ? & ?)|done]|done]).
Qed.

(** C1: in a run in which the clock answered, [fetch] raises [FetchError]
    exactly when every worker has returned an outcome and some channel has
    [success=false] for every one of its subdirs; the set the exception
    carries is the set of those channels, so a channel with one
    [success=true] outcome is not in it.  The judgment needs the outcome of
    every worker: it is not made while one is missing. *)
Theorem fetch_raises_FetchError_iff_channel_unfetched (w : world)
    (output_config : OutputConfig) (channels subdirs : list string)
    (timestamp : string) :
  (get_ntp_time w).2 = Ok timestamp →
  let returned :=
    Forall (λ target,
              is_Ok (submit w (fetch_session w) timestamp output_config target).2)
      (targets channels subdirs) in
  let failing channel :=
    channel ∈ channels ∧
    ∀ subdir, subdir ∈ subdirs →
      (fetch_repodata w (fetch_session w) timestamp output_config
         channel subdir).2 = Ok (channel, subdir, false) in
  let r := fetch w output_config channels subdirs in
  ((∃ msg arg, outcome r = Err (FetchError msg arg)) ↔
     returned ∧ ∃ channel, failing channel) ∧
  (∀ msg arg, outcome r = Err (FetchError msg arg) →
     ∃ named : gset string,
       arg = Some named ∧ ∀ channel, channel ∈ named ↔ failing channel).
Proof.
  intros Hclock returned failing r.
  destruct (decide returned) as [Hall|Hnot].
  - destruct (fetch_judgment w output_config channels subdirs timestamp
                Hclock Hall) as [Hiff Hnamed].
    split; [|done]. fold r in Hiff. rewrite Hiff. tauto.
  - assert (Hno : ∀ msg arg, outcome r ≠ Err (FetchError msg arg)).
    { apply not_Forall_Exists in Hnot; [|apply _].
      apply Exists_exists in Hnot as ([c s] & Hin & Hc).
      apply elem_of_targets in Hin as [Hin_c Hin_s]. unfold submit in Hc.
      simpl in Hc.
      destruct (fetch_repodata w (fetch_session w) timestamp output_config c s).2
        as [?|e] eqn:He; [by destruct Hc|].
      destruct (fetch_worker_error w output_config channels subdirs timestamp
                  c s e Hclock Hin_c Hin_s He) as (e' & c' & s' & Hout & _ & _ & He').
      fold r in Hout. rewrite Hout. intros msg arg [= ->].
      by apply fetch_repodata_raises in He'. }
    split.
    + split; [|tauto]. intros (msg & arg & Hout). by destruct (Hno msg arg).
    + intros msg arg Hout. by destruct (Hno msg arg).
Qed.


Lemma fetch_raises_FetchError_iff_channel_unfetched_witness :
  let channels := ["https://example.org/chan"; "https://example.org/gone"] in
  let subdirs := ["noarch"; "linux-64"] in
  let failing channel :=
    channel ∈ channels ∧
    ∀ subdir, subdir ∈ subdirs →
      (fetch_repodata sample_world (fetch_session sample_world)
         "2023-11-14T23:13:20+00:00" sample_config channel subdir).2
      = Ok (channel, subdir, false) in
  let returned :=
    Forall (λ target,
              is_Ok (submit sample_world (fetch_session sample_world)
                       "2023-11-14T23:13:20+00:00" sample_config target).2)
      (targets channels subdirs) in
  let r := fetch sample_world sample_config channels subdirs in
  ((∃ msg arg, outcome r = Err (FetchError msg arg)) ↔
     returned ∧ ∃ channel, failing channel) ∧
  (∀ msg arg, outcome r = Err (FetchError msg arg) →
     ∃ named : gset string,
       arg = Some named ∧ ∀ channel, channel ∈ named ↔ failing channel).
Proof.
  apply (fetch_raises_FetchError_iff_channel_unfetched sample_world sample_config).
  vm_compute. reflexivity.
Defined.

(** C2: [fetch_repodata] returns an outcome with [success=false] exactly when
    the response has status 404, and then the warning is the last thing it
    logged; on any other HTTP error status it raises [HTTPError] and returns
    no outcome; and a worker of a run that raises makes [fetch] raise an
    exception that a worker raised. *)
Theorem fetch_repodata_false_iff_404 (w : world) (session : Session)
    (timestamp : string) (output_config : OutputConfig)
    (channel subdir : string) :
  let url := url_prefix channel subdir +:+ "/repodata.json" in
  let r := fetch_repodata w session timestamp output_config channel subdir in
  (∀ c s, r.2 = Ok (c, s, false) ↔
     c = channel ∧ s = subdir ∧
     ∃ text, http_get w session url = HttpResponse 404 text) ∧
  (∀ text, http_get w session url = HttpResponse 404 text →
     r.1 = not_found_trace channel subdir) ∧
  (∀ status_code text,
     http_get w session url = HttpResponse status_code text →
     400 ≤ status_code < 600 → status_code ≠ 404 →
     r.2 = Err (HTTPError status_code)) ∧
  (∀ channels subdirs e,
     session = fetch_session w → (get_ntp_time w).2 = Ok timestamp →
     channel ∈ channels → subdir ∈ subdirs → r.2 = Err e →
     ∃ e' channel' subdir',
       outcome (fetch w output_config channels subdirs) = Err e' ∧
       channel' ∈ channels ∧ subdir' ∈ subdirs ∧
       (fetch_repodata w session timestamp output_config channel' subdir').2
       = Err e').
Proof.
  intros url r. split; [|split; [|split]].
  - intros c s. unfold r, fetch_repodata, raise_for_status, makedirs, write_file,
      bind, emit, ret, raise, lift. fold url. simpl.
    destruct (http_get w session url) as [status_code text|]; simpl.
    2:{ split; [done|]. by intros (_ & _ & ? & ?). }
    destruct ((400 <=? status_code) && (status_code <? 600)) eqn:Hrange.
    + destruct (status_code =? 404) eqn:H404; simpl.
      * apply Z.eqb_eq in H404 as ->.
        split; [intros [= <- <-]; eauto|by intros (-> & -> & _)].
      * apply Z.eqb_neq in H404. split; [done|]. by intros (_ & _ & ? & [= ? ?]).
    + assert (status_code ≠ 404) by (intros ->; discriminate).
      split; [|by intros (_ & _ & ? & [= ? ?])].
      repeat case_match; simplify_eq/=; done.
  - intros text Hget. unfold r, fetch_repodata. fold url. by rewrite Hget.
  - intros status_code text Hget Hrange H404.
    unfold r, fetch_repodata, raise_for_status. fold url. rewrite Hget.
    assert ((400 <=? status_code) && (status_code <? 600) = true) as ->.
    { apply andb_true_intro. split; [apply Z.leb_le|apply Z.ltb_lt]; lia. }
    apply Z.eqb_neq in H404. by rewrite H404.
  - intros channels subdirs e -> Hclock Hc Hs He.
    by eapply fetch_worker_error.
Qed.

Lemma fetch_repodata_false_iff_404_witness :
  (fetch_repodata sample_world (fetch_session sample_world)
     "2023-11-14T23:13:20+00:00" sample_config
     "https://example.org/broken" "noarch").2 = Err (HTTPError 500) ∧
  ∃ e' channel' subdir',
    outcome (fetch sample_world sample_config
               ["https://example.org/chan"; "https://example.org/broken"]
               ["noarch"]) = Err e' ∧
    channel' ∈ ["https://example.org/chan"; "https://example.org/broken"] ∧
    subdir' ∈ ["noarch"] ∧
    (fetch_repodata sample_world (fetch_session sample_world)
       "2023-11-14T23:13:20+00:00" sample_config channel' subdir').2 = Err e'.
Proof.
  pose proof (fetch_repodata_false_iff_404 sample_world
    (fetch_session sample_world) "2023-11-14T23:13:20+00:00" sample_config
    "https://example.org/broken" "noarch") as (_ & _ & H500 & Hrun).
  split.
  - apply (H500 500 ""); [reflexivity|lia|lia].
  - apply (Hrun _ _ (HTTPError 500)).
    + reflexivity.
    + vm_compute. reflexivity.
    + apply (bool_decide_unpack _). vm_compute. exact I.
    + apply (bool_decide_unpack _). vm_compute. exact I.
    + apply (H500 500 ""); [reflexivity|lia|lia].
Defined.

(** ** Traces *)

(** Case analysis on membership in an explicit list. *)
Local Ltac elem_cases H :=
  repeat (apply elem_of_cons in H as [H|H]; [try discriminate H|]);
  try (by apply elem_of_nil in H).

Lemma elem_of_list_insert_inv {A : Type} (l : list A) (i : nat) (x y : A) :
  y ∈ <[i := x]> l → y = x ∨ y ∈ l.
Proof.
  intros Hin. apply list_elem_of_lookup in Hin as [j Hj].
  destruct (decide (i = j)) as [->|Hne].
  - destruct (decide (j < length l)%nat).
    + rewrite list_lookup_insert_eq in Hj by done. left. congruence.
    + rewrite list_insert_ge in Hj by lia. right. by eapply list_elem_of_lookup_2.
  - rewrite list_lookup_insert_ne in Hj by done. right.
    by eapply list_elem_of_lookup_2.
Qed.

(** An interleaving performs only events of the workers. *)
Lemma elem_of_interleave (sched : list nat) (pending : list (list event))
    (ev : event) :
  ev ∈ (interleave sched pending).1 → ∃ l, l ∈ pending ∧ ev ∈ l.
Proof.
  revert pending. induction sched as [|i sched IH]; intros pending; simpl.
  { intros Hin. by apply elem_of_nil in Hin. }
  destruct (pending !! i) as [[|ev0 rest]|] eqn:Hi; [by apply IH| |by apply IH].
  specialize (IH (<[i := rest]> pending)).
  destruct (interleave sched (<[i := rest]> pending)) as [evs remaining]. simpl in *.
  intros [->|Hin]%elem_of_cons.
  - exists (ev0 :: rest). split; [by eapply list_elem_of_lookup_2|].
    apply list_elem_of_here.
  - destruct (IH Hin) as (l & Hl & Hev).
    apply elem_of_list_insert_inv in Hl as [->|Hl].
    + exists (ev0 :: rest). split; [by eapply list_elem_of_lookup_2|].
      by apply list_elem_of_further.
    + by exists l.
Qed.

Lemma elem_of_run_trace (sched : list nat) (r : run) (ev : event) :
  ev ∈ run_trace sched r →
  ev ∈ main_before r ∨ (∃ l, l ∈ workers r ∧ ev ∈ l) ∨ ev ∈ main_after r.
Proof.
  unfold run_trace.
  pose proof (elem_of_interleave sched (workers r) ev) as Hw.
  destruct (interleave sched (workers r)) as [evs remaining]. simpl in Hw.
  rewrite !elem_of_app. intros [?|[?|Hin]]; [by left|right; left; by apply Hw|].
  case_decide; [by right; right|]. by apply elem_of_nil in Hin.
Qed.

(** The clock only sends NTP requests. *)
Lemma get_ntp_time_from_events (w : world) (servers : list string) (ev : event) :
  ev ∈ (get_ntp_time_from w servers).1 →
  ∃ server, server ∈ servers ∧ ev = EvNtpRequest server 4 2.
Proof.
  induction servers as [|server servers IH]; simpl.
  { intros Hin. by apply elem_of_nil in Hin. }
  unfold bind, emit. simpl.
  destruct (ntp_request w server 4 2) as [tx_time| |]; simpl.
  - intros ->%list_elem_of_singleton. exists server. split; [|done].
    apply list_elem_of_here.
  - destruct (get_ntp_time_from w servers) as [evs res]. simpl in *.
    intros [->|Hin]%elem_of_cons.
    + exists server. split; [apply list_elem_of_here|done].
    + destruct (IH Hin) as (server' & ? & ?). exists server'.
      split; [by apply list_elem_of_further|done].
  - intros ->%list_elem_of_singleton. exists server. split; [|done].
    apply list_elem_of_here.
Qed.

(** Every worker of a run does a prefix of what a worker of some target does
    when the target is absent or when all goes well. *)
Lemma workers_prefix (w : world) (output_config : OutputConfig)
    (channels subdirs : list string) (l : list event) :
  l ∈ workers (fetch w output_config channels subdirs) →
  ∃ timestamp channel subdir,
    (get_ntp_time w).2 = Ok timestamp ∧
    (l `prefix_of` not_found_trace channel subdir ∨
     ∃ text, l `prefix_of` success_trace output_config timestamp channel subdir text).
Proof.
  destruct (get_ntp_time w).2 as [timestamp|e] eqn:Hclock.
  2:{ rewrite (fetch_clock_Err _ _ _ _ e Hclock). simpl.
      intros Hin. by apply elem_of_nil in Hin. }
  destruct (fetch_clock_Ok w output_config channels subdirs timestamp Hclock)
    as (_ & -> & _).
  rewrite <- list_fmap_compose. intros ([c s] & -> & _)%list_elem_of_fmap.
  exists timestamp, c, s. split; [done|]. unfold submit. simpl.
  destruct (fetch_repodata_cases w (fetch_session w) timestamp output_config c s)
    as [->|[[text ->]|(e & _ & Hpre)]]; simpl.
  - by left.
  - right. by exists text.
  - right. by eexists.
Qed.

Lemma not_found_trace_writes (channel subdir : string) (ev : event) (p : string) :
  ev ∈ not_found_trace channel subdir → ¬ writes_to ev p.
Proof.
  unfold not_found_trace. rewrite !elem_of_cons, elem_of_nil.
  intros [->|[->|[->|[]]]]; simpl; tauto.
Qed.

(** The two files a worker writes, and what it writes to them. *)
Lemma success_trace_writes (output_config : OutputConfig)
    (timestamp channel subdir text : string) (ev : event) (p : string) :
  ev ∈ success_trace output_config timestamp channel subdir text →
  writes_to ev p →
  let path := output_file_path output_config channel subdir in
  (p = path +:+ ".time" ∧ (ev = EvOpen p ∨ ev = EvWrite p (print_line timestamp)))
  ∨ (p = path ∧ (ev = EvOpen p ∨ ev = EvWrite p text)).
Proof.
  unfold success_trace. rewrite !elem_of_cons, elem_of_nil.
  intros [->|[->|[->|[->|[->|[->|[->|[->|[]]]]]]]]]; simpl; try tauto;
    intros <-; tauto.
Qed.

Lemma workers_writes (w : world) (output_config : OutputConfig)
    (channels subdirs : list string) (l : list event) (ev : event) (p : string) :
  l ∈ workers (fetch w output_config channels subdirs) → ev ∈ l →
  writes_to ev p →
  ∃ timestamp channel subdir,
    (get_ntp_time w).2 = Ok timestamp ∧
    let path := output_file_path output_config channel subdir in
    (p = path +:+ ".time" ∧ (ev = EvOpen p ∨ ev = EvWrite p (print_line timestamp)))
    ∨ (p = path ∧ ∃ text, ev = EvOpen p ∨ ev = EvWrite p text).
Proof.
  intros Hl Hev Hp.
  destruct (workers_prefix w output_config channels subdirs l Hl)
    as (timestamp & c & s & Hclock & [Hpre|[text Hpre]]).
  - exfalso. eapply not_found_trace_writes; [|done].
    destruct Hpre as [k ->]. apply elem_of_app. by left.
  - exists timestamp, c, s. split; [done|].
    destruct (success_trace_writes output_config timestamp c s text ev p)
      as [?|[? ?]]; [|done|by left|right; eauto].
    destruct Hpre as [k ->]. apply elem_of_app. by left.
Qed.

(** C5: whatever the schedule, a run that does not return writes no event to
    [{output_root}/.time]; this is so in particular when a worker raises, which
    makes the run raise, and when the run raises [FetchError]. *)
Theorem root_time_written_only_on_success (w : world)
    (output_config : OutputConfig) (channels subdirs : list string)
    (sched : list nat) :
  let r := fetch w output_config channels subdirs in
  let untouched :=
    ∀ ev, ev ∈ run_trace sched r → ¬ writes_to ev (root_time_path output_config) in
  (outcome r ≠ Ok tt → untouched) ∧
  (∀ msg arg, outcome r = Err (FetchError msg arg) → untouched) ∧
  (∀ timestamp channel subdir e,
     (get_ntp_time w).2 = Ok timestamp →
     channel ∈ channels → subdir ∈ subdirs →
     (fetch_repodata w (fetch_session w) timestamp output_config
        channel subdir).2 = Err e →
     untouched).
Proof.
  intros r untouched.
  assert (H : outcome r ≠ Ok tt → untouched).
  { intros Hout ev Hev Hw.
    apply elem_of_run_trace in Hev as [Hev|[(l & Hl & Hev)|Hev]].
    - unfold r in Hev.
      assert (main_before (fetch w output_config channels subdirs)
              = (get_ntp_time w).1) as Hmb.
      { unfold fetch. by destruct (get_ntp_time w).2. }
      rewrite Hmb in Hev.
      apply get_ntp_time_from_events in Hev as (server & _ & ->). done.
    - destruct (workers_writes w output_config channels subdirs l ev _ Hl Hev Hw)
        as (timestamp & c & s & _ & [[Hp _]|[Hp _]]);
        by destruct (root_time_path_not_target output_config c s).
    - pose proof (fetch_main_after w output_config channels subdirs) as Hafter.
      cbv zeta in Hafter. fold r in Hafter.
      destruct (outcome r) as [[]|e]; [done|].
      rewrite Hafter in Hev. by apply elem_of_nil in Hev. }
  split; [done|]. split.
  - intros msg arg Hout. apply H. by rewrite Hout.
  - intros timestamp channel subdir e Hclock Hc Hs He. apply H.
    destruct (fetch_worker_error w output_config channels subdirs timestamp
                channel subdir e Hclock Hc Hs He) as (e' & _ & _ & Hout & _).
    fold r in Hout. by rewrite Hout.
Qed.

Lemma root_time_written_only_on_success_witness :
  Forall (λ ev, ¬ writes_to ev (root_time_path sample_config))
    (run_trace [0; 1; 0; 1; 0; 1; 0; 0; 0; 0; 0]%nat
       (fetch sample_world sample_config
          ["https://example.org/chan"; "https://example.org/broken"]
          ["noarch"])).
Proof.
  apply Forall_forall.
  apply (proj1 (root_time_written_only_on_success sample_world sample_config
                  ["https://example.org/chan"; "https://example.org/broken"]
                  ["noarch"] [0; 1; 0; 1; 0; 1; 0; 0; 0; 0; 0]%nat)).
  vm_compute. discriminate.
Defined.



(** ** The companion file comes first *)

Lemma opens_guarded_prefix (seen l l' : list event) :
  opens_guarded seen l → l' `prefix_of` l → opens_guarded seen l'.
Proof.
  intros Hg [k ->] l1 path l2 -> Hp. apply (Hg l1 path (l2 ++ k)); [|done].
  by rewrite <- app_assoc.
Qed.

Lemma opens_guarded_mono (seen seen' l : list event) :
  opens_guarded seen l → seen ⊆ seen' → opens_guarded seen' l.
Proof.
  intros Hg Hsub l1 path l2 Hl Hp.
  specialize (Hg l1 path l2 Hl Hp). apply elem_of_app in Hg as [?|?];
    apply elem_of_app; [left; by apply Hsub|by right].
Qed.

Lemma opens_guarded_nil (seen : list event) : opens_guarded seen [].
Proof. intros [|??] ?? ?; done. Qed.

Lemma opens_guarded_cons (seen : list event) (ev : event) (l : list event) :
  (∀ path, ev = EvOpen path → is_repodata_json path →
     EvOpen (path +:+ ".time") ∈ seen) →
  opens_guarded (seen ++ [ev]) l →
  opens_guarded seen (ev :: l).
Proof.
  intros Hev Hl [|ev' l1] path l2 Heq Hp; simplify_eq/=.
  - rewrite app_nil_r. by apply Hev.
  - specialize (Hl l1 path l2 eq_refl Hp). by rewrite <- app_assoc in Hl.
Qed.

Lemma opens_guarded_cons_inv (seen : list event) (ev : event) (l : list event) :
  opens_guarded seen (ev :: l) →
  (∀ path, ev = EvOpen path → is_repodata_json path →
     EvOpen (path +:+ ".time") ∈ seen) ∧
  opens_guarded (seen ++ [ev]) l.
Proof.
  intros Hg. split.
  - intros path -> Hp. specialize (Hg [] path l eq_refl Hp).
    by rewrite app_nil_r in Hg.
  - intros l1 path l2 -> Hp. specialize (Hg (ev :: l1) path l2 eq_refl Hp).
    by rewrite <- app_assoc.
Qed.

Lemma opens_guarded_app (seen l1 l2 : list event) :
  opens_guarded seen l1 → opens_guarded (seen ++ l1) l2 →
  opens_guarded seen (l1 ++ l2).
Proof.
  revert seen. induction l1 as [|ev l1 IH]; intros seen H1 H2; simpl.
  - by rewrite app_nil_r in H2.
  - apply opens_guarded_cons_inv in H1 as [Hev H1].
    apply opens_guarded_cons; [done|]. apply IH; [done|].
    by rewrite <- app_assoc.
Qed.

(** Events that open no [repodata.json] are guarded. *)
Lemma opens_guarded_no_open (seen l : list event) :
  (∀ path, EvOpen path ∈ l → ¬ is_repodata_json path) → opens_guarded seen l.
Proof.
  intros Hno l1 path l2 -> Hp. destruct (Hno path); [|done].
  apply elem_of_app. right. apply list_elem_of_here.
Qed.

Lemma success_trace_guarded (output_config : OutputConfig)
    (timestamp channel subdir text : string) :
  opens_guarded [] (success_trace output_config timestamp channel subdir text).
Proof.
  unfold success_trace.
  repeat (apply opens_guarded_cons; [try done|]; simpl).
  - intros path [= <-] Hp. exfalso.
    eapply time_file_not_repodata_json; [|done]. apply has_suffix_app.
  - intros path [= <-] _. rewrite !elem_of_cons. tauto.
  - apply opens_guarded_nil.
Qed.

Lemma workers_guarded (w : world) (output_config : OutputConfig)
    (channels subdirs : list string) :
  Forall (opens_guarded []) (workers (fetch w output_config channels subdirs)).
Proof.
  apply Forall_forall. intros l Hl.
  destruct (workers_prefix w output_config channels subdirs l Hl)
    as (timestamp & c & s & _ & [Hpre|[text Hpre]]).
  - eapply opens_guarded_prefix; [|done]. apply opens_guarded_no_open.
    intros path Hin. unfold not_found_trace in Hin. elem_cases Hin.
  - eapply opens_guarded_prefix; [|done]. apply success_trace_guarded.
Qed.

(** Interleaving keeps the order of each worker, hence the guard. *)
Lemma interleave_guarded (sched : list nat) (pending : list (list event))
    (seen : list event) :
  Forall (opens_guarded seen) pending →
  opens_guarded seen (interleave sched pending).1.
Proof.
  revert pending seen. induction sched as [|i sched IH]; intros pending seen Hall.
  { apply opens_guarded_nil. }
  simpl. destruct (pending !! i) as [[|ev rest]|] eqn:Hi; [by apply IH| |by apply IH].
  specialize (IH (<[i := rest]> pending) (seen ++ [ev])).
  destruct (interleave sched (<[i := rest]> pending)) as [evs remaining]. simpl in *.
  rewrite Forall_forall in Hall.
  pose proof (Hall _ (list_elem_of_lookup_2 _ _ _ Hi)) as Hi_guard.
  apply opens_guarded_cons_inv in Hi_guard as [Hev Hrest].
  apply opens_guarded_cons; [done|]. apply IH.
  apply Forall_forall. intros l [->|Hl]%elem_of_list_insert_inv; [done|].
  eapply opens_guarded_mono; [by apply Hall|].
  intros x Hx. apply elem_of_app. by left.
Qed.

Lemma run_trace_guarded (w : world) (output_config : OutputConfig)
    (channels subdirs : list string) (sched : list nat) :
  opens_guarded [] (run_trace sched (fetch w output_config channels subdirs)).
Proof.
  unfold run_trace.
  pose proof (interleave_guarded sched
    (workers (fetch w output_config channels subdirs)) []
    (workers_guarded w output_config channels subdirs)) as Hw.
  destruct (interleave sched _) as [evs remaining]. simpl in Hw.
  apply opens_guarded_app.
  { apply opens_guarded_no_open. intros path Hin.
    assert (main_before (fetch w output_config channels subdirs)
            = (get_ntp_time w).1) as Hmb.
    { unfold fetch. by destruct (get_ntp_time w).2. }
    rewrite Hmb in Hin.
    by apply get_ntp_time_from_events in Hin as (server & _ & ?). }
  apply opens_guarded_app.
  { eapply opens_guarded_mono; [done|]. intros x Hx. by apply elem_of_nil in Hx. }
  apply opens_guarded_no_open. intros path Hin.
  case_decide; [|by apply elem_of_nil in Hin].
  pose proof (fetch_main_after w output_config channels subdirs) as Hafter.
  cbv zeta in Hafter.
  destruct (outcome _); [destruct Hafter as (ts & _ & Heq)|];
    rewrite ?Heq, ?Hafter in Hin; elem_cases Hin. simplify_eq.
  intros Hp. eapply time_file_not_repodata_json; [|done].
  apply root_time_path_is_time_file.
Qed.

Lemma apply_event_is_Some (fs : files) (ev : event) (path : string) :
  is_Some (apply_event fs ev !! path) ↔
  is_Some (fs !! path) ∨ ev = EvOpen path.
Proof.
  destruct ev as [| | | |p|p text]; simpl; try (split; [by left|by intros [?|?]]).
  - rewrite lookup_insert_is_Some. split.
    + intros [->|[_ ?]]; [by right|by left].
    + intros [?|[= ->]]; [|by left].
      destruct (decide (p = path)); [by left|by right].
  - rewrite lookup_alter_is_Some. split; [by left|by intros [?|?]].
Qed.

(** Along a guarded trace the companions stay present. *)
Lemma files_after_guarded (l seen : list event) (fs : files) :
  (∀ path, EvOpen path ∈ seen → is_Some (fs !! path)) →
  companions_present fs → opens_guarded seen l →
  companions_present (files_after fs l).
Proof.
  revert seen fs. induction l as [|ev l IH]; intros seen fs Hseen Hfs Hg; [done|].
  apply opens_guarded_cons_inv in Hg as [Hev Hl]. simpl.
  apply (IH (seen ++ [ev])); [| |done].
  - intros path [Hin| <-%list_elem_of_singleton]%elem_of_app.
    + apply apply_event_is_Some. left. by apply Hseen.
    + apply apply_event_is_Some. by right.
  - intros path x Hx Hp. apply apply_event_is_Some. left.
    assert (is_Some (apply_event fs ev !! path)) as [Hin| ->]%apply_event_is_Some
      by done.
    + destruct Hin as [y Hy]. by apply (Hfs path y).
    + apply Hseen. by apply Hev.
Qed.

(** ** Complete runs *)

Lemma interleave_replicate (l : list event) (i : nat) (sched : list nat)
    (pre post : list (list event)) :
  length pre = i →
  interleave (replicate (length l) i ++ sched) (pre ++ l :: post)
  = ((l ++ (interleave sched (pre ++ [] :: post)).1),
     (interleave sched (pre ++ [] :: post)).2).
Proof.
  intros <-. induction l as [|ev l IH]; simpl.
  { by destruct (interleave sched _). }
  rewrite list_lookup_middle by done.
  rewrite insert_app_r_alt, Nat.sub_diag by done. simpl.
  rewrite IH. by destruct (interleave sched _).
Qed.

Lemma interleave_sequential (pre ws : list (list event)) :
  interleave (sequential_schedule (length pre) ws) (pre ++ ws)
  = (concat ws, pre ++ ((λ _, []) <$> ws)).
Proof.
  revert pre. induction ws as [|l ws IH]; intros pre; [done|].
  unfold sequential_schedule. rewrite imap_cons. simpl.
  rewrite Nat.add_0_r, interleave_replicate by done.
  specialize (IH (pre ++ [[]])). rewrite length_app in IH. simpl in IH.
  rewrite <- !app_assoc in IH. simpl in IH.
  unfold sequential_schedule in IH.
  rewrite (imap_ext _ (λ i l0, replicate (length l0) (length pre + 1 + i)%nat)).
  2:{ intros i x _. simpl. f_equal. lia. }
  by rewrite IH.
Qed.

(** Under the sequential schedule a run is performed to its end. *)
Lemma run_trace_sequential (r : run) :
  run_trace (sequential_schedule 0 (workers r)) r
  = main_before r ++ concat (workers r) ++ main_after r.
Proof.
  unfold run_trace.
  pose proof (interleave_sequential [] (workers r)) as H. simpl in H.
  rewrite H. simpl.
  rewrite decide_True; [done|].
  apply Forall_forall. by intros l (? & -> & _)%list_elem_of_fmap.
Qed.

Lemma success_trace_split (output_config : OutputConfig)
    (timestamp channel subdir text : string) (l1 l2 : list event) :
  success_trace output_config timestamp channel subdir text
  = l1 ++ EvOpen (output_file_path output_config channel subdir) :: l2 →
  EvWrite (output_file_path output_config channel subdir +:+ ".time")
    (print_line timestamp) ∈ l1.
Proof.
  unfold success_trace. intros H.
  do 4 (destruct l1 as [|? l1]; [discriminate H|];
        apply (f_equal tail) in H; simpl in H).
  destruct l1 as [|? l1].
  { exfalso. injection H as H _.
    apply (time_file_not_repodata_json
             (output_file_path output_config channel subdir)).
    - rewrite <- H. apply has_suffix_app.
    - apply output_file_path_is_repodata_json. }
  destruct l1 as [|? l1]; [discriminate H|].
  injection H as <- <- _. rewrite !elem_of_cons. tauto.
Qed.

(** C10: a worker opens [repodata.json] only after it has written the
    timestamp line to [repodata.json.time]; hence, whatever the schedule of
    the workers, at every point of a run that starts from a file system in
    which every [repodata.json] has its companion, every [repodata.json] has
    its companion. *)
Theorem companion_written_before_repodata (w : world)
    (output_config : OutputConfig) :
  (∀ session timestamp channel subdir l1 l2,
     (fetch_repodata w session timestamp output_config channel subdir).1
     = l1 ++ EvOpen (output_file_path output_config channel subdir) :: l2 →
     EvWrite (output_file_path output_config channel subdir +:+ ".time")
       (print_line timestamp) ∈ l1) ∧
  (∀ channels subdirs sched fs pre,
     companions_present fs →
     pre `prefix_of` run_trace sched (fetch w output_config channels subdirs) →
     companions_present (files_after fs pre)).
Proof.
  split.
  - intros session timestamp channel subdir l1 l2 H.
    destruct (fetch_repodata_cases w session timestamp output_config
                channel subdir) as [Heq|[[text Heq]|(e & _ & [k Hk])]].
    + rewrite Heq in H. simpl in H.
      assert (Hin : EvOpen (output_file_path output_config channel subdir)
                    ∈ not_found_trace channel subdir).
      { rewrite H. apply elem_of_app. right. apply list_elem_of_here. }
      unfold not_found_trace in Hin. elem_cases Hin.
    + rewrite Heq in H. simpl in H. by eapply success_trace_split.
    + rewrite H, <- app_assoc in Hk. simpl in Hk. by eapply success_trace_split.
  - intros channels subdirs sched fs pre Hfs Hpre.
    apply (files_after_guarded pre []); [|done|].
    + intros path Hin. by apply elem_of_nil in Hin.
    + eapply opens_guarded_prefix; [|done]. apply run_trace_guarded.
Qed.

Lemma companion_written_before_repodata_witness :
  companions_present
    (files_after
       {[ "out/old/repodata.json" := "{}";
          "out/old/repodata.json.time" := "2023-11-13T23:13:20+00:00" ]}
       [ EvNtpRequest "0.pool.ntp.org" 4 2; EvNtpRequest "1.pool.ntp.org" 4 2;
         EvLog INFO "Fetching https://example.org/chan/noarch/repodata.json ...";
         EvLog INFO "Fetching https://example.org/chan/linux-64/repodata.json ...";
         EvHttpGet "https://example.org/chan/noarch/repodata.json";
         EvMakedirs "out/https%3A%2F/example.org/chan/noarch";
         EvLog INFO
           "Writing out/https%3A%2F/example.org/chan/noarch/repodata.json ...";
         EvOpen "out/https%3A%2F/example.org/chan/noarch/repodata.json.time";
         EvWrite "out/https%3A%2F/example.org/chan/noarch/repodata.json.time"
           (print_line "2023-11-14T23:13:20+00:00");
         EvOpen "out/https%3A%2F/example.org/chan/noarch/repodata.json" ]).
Proof.
  apply (proj2 (companion_written_before_repodata sample_world sample_config)
           ["https://example.org/chan"] ["noarch"; "linux-64"]
           [0; 1; 0; 0; 0; 0; 0; 0; 0; 1]%nat).
  - apply (bool_decide_unpack _). vm_compute. exact I.
  - apply (bool_decide_unpack _). vm_compute. exact I.
Defined.

(** ** The clock *)

(** The loop asks the servers in order, each once, and stops at the first
    answer, which it renders in local time. *)
Lemma get_ntp_time_from_first_answer (w : world)
    (skipped : list string) (server : string) (rest : list string) (tx_time : Z) :
  Forall (λ s, ntp_request w s 4 2 = NtpNoResponse) skipped →
  ntp_request w server 4 2 = NtpResponse tx_time →
  get_ntp_time_from w (skipped ++ server :: rest)
  = ((λ s, EvNtpRequest s 4 2) <$> skipped ++ [server],
     Ok (strftime (fromtimestamp w tx_time))).
Proof.
  intros Hskipped Hserver. induction Hskipped as [|s skipped Hs _ IH]; simpl.
  - by rewrite Hserver.
  - rewrite Hs, IH. done.
Qed.

(** It raises [FetchError] exactly when no server of the list answers. *)
Lemma get_ntp_time_from_FetchError (w : world) (servers : list string) :
  (∃ msg arg, (get_ntp_time_from w servers).2 = Err (FetchError msg arg)) ↔
  Forall (λ s, ntp_request w s 4 2 = NtpNoResponse) servers.
Proof.
  induction servers as [|server servers IH]; simpl.
  - split; [done|]. intros _. by eexists _, _.
  - unfold bind, emit. simpl.
    destruct (ntp_request w server 4 2) as [tx_time| |] eqn:Hserver; simpl.
    + split; [by intros (? & ? & ?)|]. intros [? _]%Forall_cons. congruence.
    + destruct (get_ntp_time_from w servers) as [evs res]. simpl in *.
      rewrite Forall_cons, <- IH. tauto.
    + split; [by intros (? & ? & ?)|]. intros [? _]%Forall_cons. congruence.
Qed.

(** C4: with a local time zone one hour east of UTC and the second server
    answering at 2023-11-14 22:13:20 UTC, [get_ntp_time] asks the first two
    servers in order and returns the local wall-clock time 23:13:20 under the
    label [+00:00], where the UTC rendering of the answer is 22:13:20. *)
Theorem get_ntp_time_labels_local_time_as_utc :
  get_ntp_time sample_world
  = ([ EvNtpRequest "0.pool.ntp.org" 4 2; EvNtpRequest "1.pool.ntp.org" 4 2 ],
     Ok "2023-11-14T23:13:20+00:00") ∧
  strftime (utcfromtimestamp 1700000000000000) = "2023-11-14T22:13:20+00:00".
Proof. split; vm_compute; reflexivity. Qed.

(** ** The output path *)





(** ** Scenarios *)

(** Decide a closed proposition by evaluation. *)
Local Ltac by_evaluation := apply (bool_decide_unpack _); vm_compute; exact I.

(** One channel has a subdir and the other has none: the run raises
    [FetchError] with the second channel, the artifact of the first is on
    disk with its companion, and there is no [.time] at the output root. *)
Example scenario_channel_without_subdir :
  let r := fetch sample_world sample_config
             ["https://example.org/chan"; "https://example.org/gone"]
             ["noarch"; "linux-64"] in
  outcome r
  = Err (FetchError "No repodata.json found for any subdir in channels %s ."
           (Some {[ "https://example.org/gone" ]})) ∧
  files_after ∅ (run_trace (sequential_schedule 0 (workers r)) r)
  = {[ "out/https%3A%2F/example.org/chan/noarch/repodata.json" := "{}";
       "out/https%3A%2F/example.org/chan/noarch/repodata.json.time" :=
         print_line "2023-11-14T23:13:20+00:00" ]}.
Proof. split; by_evaluation. Qed.

(** Every target is found: the run returns, and the three files carry the
    same timestamp line. *)
Example scenario_all_found :
  let r := fetch sample_world sample_config ["https://example.org/chan"]
             ["noarch"] in
  outcome r = Ok tt ∧
  files_after ∅ (run_trace (sequential_schedule 0 (workers r)) r)
  = {[ "out/.time" := print_line "2023-11-14T23:13:20+00:00";
       "out/https%3A%2F/example.org/chan/noarch/repodata.json" := "{}";
       "out/https%3A%2F/example.org/chan/noarch/repodata.json.time" :=
         print_line "2023-11-14T23:13:20+00:00" ]}.
Proof. split; by_evaluation. Qed.

(** A target answered by status 500 makes the run raise [HTTPError]; the
    sibling that was found is on disk and the root has no [.time]. *)
Example scenario_server_error :
  let r := fetch sample_world sample_config
             ["https://example.org/chan"; "https://example.org/broken"]
             ["noarch"] in
  outcome r = Err (HTTPError 500) ∧
  files_after ∅ (run_trace (sequential_schedule 0 (workers r)) r)
  = {[ "out/https%3A%2F/example.org/chan/noarch/repodata.json" := "{}";
       "out/https%3A%2F/example.org/chan/noarch/repodata.json.time" :=
         print_line "2023-11-14T23:13:20+00:00" ]}.
Proof. split; by_evaluation. Qed.

(** Three servers do not answer and the fourth does: four requests, in the
    order of the pool, and the time of the fourth. *)
Example scenario_fourth_server :
  get_ntp_time
    {| ntp_request := λ server _ _,
         if bool_decide (server = "3.pool.ntp.org") then NtpResponse 0
         else NtpNoResponse;
       utcoffset := λ _, 0;
       new_session := new_session sample_world;
       http_get := http_get sample_world;
       json_loads := json_loads sample_world;
       json_dump := json_dump sample_world;
       io_fails := io_fails sample_world;
       completion := completion sample_world |}
  = ((λ server, EvNtpRequest server 4 2) <$> ntp_pool,
     Ok "1970-01-01T00:00:00+00:00").
Proof. vm_compute. reflexivity. Qed.

(** ** The session *)

(** Both schemes are served by the adapter that carries [retry_config], and
    the user agent of the library is extended, not replaced. *)
Lemma fetch_session_mounts (w : world) :
  adapters (fetch_session w) !! "https://" = Some {| max_retries := Some retry_config |} ∧
  adapters (fetch_session w) !! "http://" = Some {| max_retries := Some retry_config |} ∧
  headers (fetch_session w) !! "User-Agent"
  = (λ v, v +:+ " https://github.com/bioconda/bioconda-repodata")
    <$> headers (new_session w) !! "User-Agent".
Proof.
  unfold fetch_session, mount. simpl. split; [apply lookup_insert_eq|]. split.
  - rewrite lookup_insert_ne by done. apply lookup_insert_eq.
  - apply lookup_alter_eq.
Qed.

(** * Further properties *)

(** ** The clock, beyond the claims *)

Lemma get_ntp_time_from_nobody (w : world) (servers : list string) :
  Forall (λ s, ntp_request w s 4 2 = NtpNoResponse) servers →
  get_ntp_time_from w servers
  = ((λ s, EvNtpRequest s 4 2) <$> servers,
     Err (FetchError "Could not get timestamp." None)).
Proof.
  induction 1 as [|s servers Hs _ IH]; [done|]. simpl. by rewrite Hs, IH.
Qed.

Lemma get_ntp_time_from_failure (w : world)
    (skipped : list string) (server : string) (rest : list string) :
  Forall (λ s, ntp_request w s 4 2 = NtpNoResponse) skipped →
  ntp_request w server 4 2 = NtpFailure →
  get_ntp_time_from w (skipped ++ server :: rest)
  = ((λ s, EvNtpRequest s 4 2) <$> skipped ++ [server], Err NTPUncaught).
Proof.
  intros Hskipped Hserver. induction Hskipped as [|s skipped Hs _ IH]; simpl.
  - by rewrite Hserver.
  - by rewrite Hs, IH.
Qed.

(** X1: [get_ntp_time] raises [FetchError] exactly when each of the four
    servers of the pool raises [NTPException]; it has then asked all four, in
    the order of the pool, and the exception carries the message
    [Could not get timestamp.] and nothing else. *)
Theorem get_ntp_time_FetchError_iff_nobody_answers (w : world) :
  let nobody := Forall (λ s, ntp_request w s 4 2 = NtpNoResponse) ntp_pool in
  ((∃ msg arg, (get_ntp_time w).2 = Err (FetchError msg arg)) ↔ nobody) ∧
  (nobody →
   get_ntp_time w
   = ([ EvNtpRequest "0.pool.ntp.org" 4 2; EvNtpRequest "1.pool.ntp.org" 4 2;
        EvNtpRequest "2.pool.ntp.org" 4 2; EvNtpRequest "3.pool.ntp.org" 4 2 ],
      Err (FetchError "Could not get timestamp." None))).
Proof.
  split.
  - apply get_ntp_time_from_FetchError.
  - intros H. unfold get_ntp_time. by rewrite (get_ntp_time_from_nobody w _ H).
Qed.

(** X2: [get_ntp_time] stops at the first server of the pool that answers:
    when the servers before it raised [NTPException], it has asked exactly
    those and this one, in order, asks none of the servers after it, and
    returns the answer's time as [datetime.fromtimestamp] and the format
    string render it. *)
Theorem get_ntp_time_stops_at_first_answer (w : world)
    (skipped : list string) (server : string) (rest : list string)
    (tx_time : Z) :
  ntp_pool = skipped ++ server :: rest →
  Forall (λ s, ntp_request w s 4 2 = NtpNoResponse) skipped →
  ntp_request w server 4 2 = NtpResponse tx_time →
  get_ntp_time w
  = ((λ s, EvNtpRequest s 4 2) <$> skipped ++ [server],
     Ok (strftime (fromtimestamp w tx_time))).
Proof.
  intros Hpool Hskipped Hserver. unfold get_ntp_time. rewrite Hpool.
  by apply get_ntp_time_from_first_answer.
Qed.

Lemma get_ntp_time_stops_at_first_answer_witness :
  get_ntp_time sample_world
  = ((λ s, EvNtpRequest s 4 2) <$> ["0.pool.ntp.org"] ++ ["1.pool.ntp.org"],
     Ok (strftime (fromtimestamp sample_world 1700000000000000))).
Proof.
  apply (get_ntp_time_stops_at_first_answer sample_world ["0.pool.ntp.org"]
           "1.pool.ntp.org" ["2.pool.ntp.org"; "3.pool.ntp.org"]).
  - reflexivity.
  - apply Forall_cons. split; [reflexivity|apply Forall_nil_2].
  - reflexivity.
Defined.

(** X3: an exception of a server's request that is not an [NTPException] is
    not caught: when the servers before it raised [NTPException],
    [get_ntp_time] raises it at once and asks none of the servers after it. *)
Theorem get_ntp_time_does_not_catch_other_errors (w : world)
    (skipped : list string) (server : string) (rest : list string) :
  ntp_pool = skipped ++ server :: rest →
  Forall (λ s, ntp_request w s 4 2 = NtpNoResponse) skipped →
  ntp_request w server 4 2 = NtpFailure →
  get_ntp_time w
  = ((λ s, EvNtpRequest s 4 2) <$> skipped ++ [server], Err NTPUncaught).
Proof.
  intros Hpool Hskipped Hserver. unfold get_ntp_time. rewrite Hpool.
  by apply get_ntp_time_from_failure.
Qed.

Lemma get_ntp_time_does_not_catch_other_errors_witness :
  get_ntp_time unresolvable_world
  = ((λ s, EvNtpRequest s 4 2) <$> ["0.pool.ntp.org"] ++ ["1.pool.ntp.org"],
     Err NTPUncaught).
Proof.
  apply (get_ntp_time_does_not_catch_other_errors unresolvable_world
           ["0.pool.ntp.org"] "1.pool.ntp.org"
           ["2.pool.ntp.org"; "3.pool.ntp.org"]).
  - reflexivity.
  - apply Forall_cons. split; [reflexivity|apply Forall_nil_2].
  - reflexivity.
Defined.

(** ** Trimming, beyond the claims *)

Lemma trim_packages_Ok_wf (trim_keys : list string) (v t : json) :
  trim_packages trim_keys v = Ok t → packages_wf v.
Proof. destruct v; simpl; try done. by case_decide. Qed.

(** X4: on a document in the heap, [cleanup_unneeded_info] raises exactly when
    there are trim keys and the document is malformed ([packages] or
    [packages.conda] is present and is not a mapping of mappings); what it
    raises is [AttributeError].  With no trim keys a malformed document
    passes. *)
Theorem cleanup_unneeded_info_raises_iff_malformed (h : heap) (repodata : loc)
    (d : dict) (trim_keys : list string) :
  h !! repodata = Some d →
  ((∃ e, cleanup_unneeded_info h repodata trim_keys = Err e) ↔
     trim_keys ≠ [] ∧ ¬ repodata_wf d) ∧
  (∀ e, cleanup_unneeded_info h repodata trim_keys = Err e → e = AttributeError).
Proof.
  intros Hr. split.
  - split.
    + intros [e He]. split.
      * intros ->. by rewrite cleanup_unneeded_info_empty in He.
      * intros Hwf.
        destruct (cleanup_unneeded_info_spec h repodata d trim_keys Hr Hwf)
          as (h' & out & d' & Hok & _). by rewrite Hok in He.
    + intros [Hne Hwf]. unfold cleanup_unneeded_info.
      rewrite bool_decide_eq_false_2 by done. rewrite Hr. simpl.
      unfold cleanup_step. simpl.
      destruct (d !! "packages") as [v1|] eqn:H1;
        [destruct (trim_packages trim_keys v1) as [t1|e1] eqn:Ht1;
           [apply trim_packages_Ok_wf in Ht1|]|];
        simpl;
        (destruct (d !! "packages.conda") as [v2|] eqn:H2;
          [destruct (trim_packages trim_keys v2) as [t2|e2] eqn:Ht2;
             [apply trim_packages_Ok_wf in Ht2|]|]);
        simpl; eauto;
        destruct Hwf; unfold repodata_wf, packages_keys;
        repeat (apply Forall_cons; split); try apply Forall_nil_2;
        rewrite ?H1, ?H2; done.
  - intros e He.
    pose proof (cleanup_unneeded_info_live h repodata d trim_keys Hr) as Hlive.
    by rewrite He in Hlive.
Qed.

Lemma cleanup_unneeded_info_raises_iff_malformed_witness :
  ∃ e, cleanup_unneeded_info malformed_heap 1%positive ["md5"] = Err e.
Proof.
  apply (proj1 (cleanup_unneeded_info_raises_iff_malformed malformed_heap
                  1%positive malformed_repodata ["md5"] eq_refl)).
  split; [discriminate|].
  apply (bool_decide_unpack _). vm_compute. exact I.
Defined.

(** X5: with trim keys, [cleanup_unneeded_info] on a repodata document
    allocates exactly one object: the location it returns was not in the heap
    and differs from the input's, and every object that was in the heap is as
    it was. *)
Theorem cleanup_unneeded_info_allocates_copy (h : heap) (repodata : loc)
    (d : dict) (trim_keys : list string) :
  trim_keys ≠ [] → h !! repodata = Some d → repodata_wf d →
  ∃ h' out,
    cleanup_unneeded_info h repodata trim_keys = Ok (h', out) ∧
    h !! out = None ∧ out ≠ repodata ∧ is_Some (h' !! out) ∧
    ∀ l, l ≠ out → h' !! l = h !! l.
Proof.
  intros Hne Hr Hwf.
  destruct (cleanup_unneeded_info_wf h repodata d trim_keys Hne Hr Hwf)
    as (d' & Hok & _).
  assert (Hfresh : h !! fresh (dom h) = None).
  { apply not_elem_of_dom. apply is_fresh. }
  eexists _, _. split; [exact Hok|]. split; [done|]. split; [|split].
  - intros Heq. rewrite Heq in Hfresh. congruence.
  - rewrite lookup_insert_eq. by eexists.
  - intros l Hl. by rewrite lookup_insert_ne.
Qed.

Lemma cleanup_unneeded_info_allocates_copy_witness :
  ∃ h' out,
    cleanup_unneeded_info sample_heap 1%positive ["md5"] = Ok (h', out) ∧
    sample_heap !! out = None ∧ out ≠ 1%positive ∧ is_Some (h' !! out) ∧
    ∀ l, l ≠ out → h' !! l = sample_heap !! l.
Proof.
  apply (cleanup_unneeded_info_allocates_copy sample_heap 1%positive
           sample_repodata ["md5"]).
  - discriminate.
  - reflexivity.
  - apply (bool_decide_unpack _). vm_compute. exact I.
Defined.

(** ** The worker, beyond the claims *)

Lemma status_range (status_code : Z) :
  (400 <=? status_code) && (status_code <? 600) = true ↔ 400 ≤ status_code < 600.
Proof. rewrite andb_true_iff, Z.leb_le, Z.ltb_lt. done. Qed.

(** [fetch_repodata] ends in one of the ways of [worker_run]. *)
Lemma fetch_repodata_run (w : world) (session : Session) (timestamp : string)
    (output_config : OutputConfig) (channel subdir : string) :
  worker_run w session timestamp output_config channel subdir
    (fetch_repodata w session timestamp output_config channel subdir).
Proof.
  unfold fetch_repodata, raise_for_status, makedirs, write_file,
    bind, emit, ret, raise, lift.
  simpl.
  destruct (http_get w session _) as [status_code text|] eqn:Hget; simpl;
    [|by apply WorkerNoResponse].
  destruct ((400 <=? status_code) && (status_code <? 600)) eqn:Hrange.
  { apply status_range in Hrange.
    destruct (status_code =? 404) eqn:H404; simpl.
    - apply Z.eqb_eq in H404 as ->. by eapply WorkerNotFound.
    - apply Z.eqb_neq in H404. by eapply WorkerHttpError. }
  assert (¬ (400 ≤ status_code < 600)) as Hok.
  { rewrite <- status_range. by rewrite Hrange. }
  destruct (json_loads w text) as [input_repodata|] eqn:Hjson; simpl;
    [|by eapply WorkerNotJson].
  pose proof (cleanup_unneeded_info_live
    (<[fresh (dom (∅ : heap)) := input_repodata]> ∅) (fresh (dom (∅ : heap)))
    input_repodata (trim_keys output_config) (lookup_insert_eq _ _ _)) as Hlive.
  destruct (cleanup_unneeded_info _ _ _) as [[h out]|e] eqn:Hclean; simpl;
    [|by eapply WorkerMalformed].
  destruct Hlive as [output_repodata Hout]. rewrite Hout. simpl.
  assert (worker_document w session output_config channel subdir
            input_repodata output_repodata) as Hdoc.
  { by exists status_code, text, h, out. }
  repeat match goal with
         | |- context [io_fails w ?p] => destruct (io_fails w p) eqn:?; simpl
         end;
    first [ by eapply WorkerNoDirectory | by eapply WorkerNoTimeFile
          | by eapply WorkerNoArtifact | by eapply WorkerWritten ].
Qed.

Lemma fetch_repodata_requests (w : world) (session : Session)
    (timestamp : string) (output_config : OutputConfig)
    (channel subdir : string) :
  omap requested_url
    (fetch_repodata w session timestamp output_config channel subdir).1
  = [ url_prefix channel subdir +:+ "/repodata.json" ].
Proof.
  destruct (fetch_repodata_run w session timestamp output_config channel subdir);
    reflexivity.
Qed.

(** X6: whatever the answer and however it ends, a worker calls
    [session.get] exactly once, for [{channel}/{subdir}/repodata.json]: it
    never asks twice itself and never asks for another URL. *)
Theorem fetch_repodata_requests_once (w : world) (session : Session)
    (timestamp : string) (output_config : OutputConfig)
    (channel subdir : string) :
  omap requested_url
    (fetch_repodata w session timestamp output_config channel subdir).1
  = [ url_prefix channel subdir +:+ "/repodata.json" ].
Proof. apply fetch_repodata_requests. Qed.

(** X7: a worker acts on the file system (creates a directory, opens or
    writes a file) only after it has got a response that is no HTTP error,
    parsed its body and trimmed the document: a worker that gets no response,
    a 404 or another error status, a body that is not JSON or a document it
    cannot trim leaves the file system alone. *)
Theorem fetch_repodata_touches_files_only_with_document (w : world)
    (session : Session) (timestamp : string) (output_config : OutputConfig)
    (channel subdir : string) (ev : event) :
  ev ∈ (fetch_repodata w session timestamp output_config channel subdir).1 →
  is_fs_event ev →
  ∃ input_repodata output_repodata,
    worker_document w session output_config channel subdir
      input_repodata output_repodata.
Proof.
  intros Hev Hfs.
  destruct (fetch_repodata_run w session timestamp output_config channel subdir);
    simpl in Hev; eauto;
    unfold request_trace, not_found_trace in Hev; elem_cases Hev;
    by subst.
Qed.

Lemma fetch_repodata_touches_files_only_with_document_witness :
  ∃ input_repodata output_repodata,
    worker_document sample_world (fetch_session sample_world) sample_config
      "https://example.org/chan" "noarch" input_repodata output_repodata.
Proof.
  apply (fetch_repodata_touches_files_only_with_document sample_world
           (fetch_session sample_world) "now" sample_config
           "https://example.org/chan" "noarch"
           (EvMakedirs "out/https%3A%2F/example.org/chan/noarch")).
  - apply (bool_decide_unpack _). vm_compute. exact I.
  - exact I.
Defined.

(** What a worker does once it has its document. *)
Lemma fetch_repodata_document (w : world) (session : Session)
    (timestamp : string) (output_config : OutputConfig)
    (channel subdir : string) (input_repodata output_repodata : dict) :
  worker_document w session output_config channel subdir
    input_repodata output_repodata →
  fetch_repodata w session timestamp output_config channel subdir
  = let dir := output_dir output_config channel subdir in
    let path := output_file_path output_config channel subdir in
    if io_fails w dir then (request_trace channel subdir, Err (OSError dir))
    else if io_fails w (path +:+ ".time") then
      (take 4 (success_trace output_config timestamp channel subdir ""),
       Err (OSError (path +:+ ".time")))
    else if io_fails w path then
      (take 6 (success_trace output_config timestamp channel subdir ""),
       Err (OSError path))
    else
      (success_trace output_config timestamp channel subdir
         (json_dump w output_repodata (indent output_config)
            (separators output_config)),
       Ok (channel, subdir, true)).
Proof.
  intros (status_code & text & h & out & Hget & Hok & Hjson & Hclean & Hout).
  unfold fetch_repodata, raise_for_status, makedirs, write_file,
    bind, emit, ret, raise, lift.
  simpl. rewrite Hget.
  destruct ((400 <=? status_code) && (status_code <? 600)) eqn:Hrange;
    [by apply status_range in Hrange|].
  rewrite Hjson. simpl. rewrite Hclean. simpl. rewrite Hout. simpl.
  repeat match goal with
         | |- context [io_fails w ?p] => destruct (io_fails w p) eqn:?; simpl
         end; reflexivity.
Qed.

Lemma string_app_neq (p s : string) : s ≠ "" → p +:+ s ≠ p.
Proof.
  intros Hs Heq. apply (f_equal (λ x, length (chars x))) in Heq.
  rewrite chars_app, length_app in Heq.
  destruct s as [|c s]; [done|]. cbn in Heq. lia.
Qed.

(** X8: a worker returns [success=True] exactly when it got a response that
    is no HTTP error, the body parsed, the document could be trimmed, and the
    directory, the companion file and the artifact could all be created; it
    has then done exactly the eight steps of a complete run, and what it
    dumped is the trimmed document. *)
Theorem fetch_repodata_succeeds_iff (w : world) (session : Session)
    (timestamp : string) (output_config : OutputConfig)
    (channel subdir : string) :
  let worker := fetch_repodata w session timestamp output_config channel subdir in
  let ready input_repodata output_repodata :=
    worker_document w session output_config channel subdir
      input_repodata output_repodata ∧
    io_fails w (output_dir output_config channel subdir) = false ∧
    io_fails w (output_file_path output_config channel subdir +:+ ".time")
    = false ∧
    io_fails w (output_file_path output_config channel subdir) = false in
  (worker.2 = Ok (channel, subdir, true) ↔
     ∃ input_repodata output_repodata, ready input_repodata output_repodata) ∧
  (∀ input_repodata output_repodata, ready input_repodata output_repodata →
     worker.1
     = success_trace output_config timestamp channel subdir
         (json_dump w output_repodata (indent output_config)
            (separators output_config))).
Proof.
  intros worker ready. split; [split|].
  - intros Hres. unfold worker in Hres.
    destruct (fetch_repodata_run w session timestamp output_config
                channel subdir); try done.
    by eexists _, _.
  - intros (input_repodata & output_repodata & Hdoc & Hdir & Htime & Hpath).
    unfold worker. rewrite (fetch_repodata_document _ _ _ _ _ _ _ _ Hdoc).
    simpl. by rewrite Hdir, Htime, Hpath.
  - intros input_repodata output_repodata (Hdoc & Hdir & Htime & Hpath).
    unfold worker. rewrite (fetch_repodata_document _ _ _ _ _ _ _ _ Hdoc).
    simpl. by rewrite Hdir, Htime, Hpath.
Qed.

(** X9: a worker that returns [success=True] has replaced both files of its
    target: whatever was on disk before, afterwards [repodata.json.time]
    holds the timestamp and a newline, [repodata.json] holds the dump of the
    trimmed document, and every other file is as it was. *)
Theorem fetch_repodata_replaces_both_files (w : world) (session : Session)
    (timestamp : string) (output_config : OutputConfig)
    (channel subdir : string) (fs : files) :
  let worker := fetch_repodata w session timestamp output_config channel subdir in
  let path := output_file_path output_config channel subdir in
  worker.2 = Ok (channel, subdir, true) →
  ∃ input_repodata output_repodata,
    worker_document w session output_config channel subdir
      input_repodata output_repodata ∧
    files_after fs worker.1
    = <[path := json_dump w output_repodata (indent output_config)
                  (separators output_config)]>
      (<[path +:+ ".time" := print_line timestamp]> fs).
Proof.
  intros worker path Hres. unfold worker in *.
  destruct (fetch_repodata_run w session timestamp output_config
              channel subdir); try done.
  exists input_repodata, output_repodata. split; [done|].
  unfold success_trace, files_after. simpl. fold path.
  assert (path +:+ ".time" ≠ path) as Hne by (by apply string_app_neq).
  apply map_eq. intros p.
  destruct (decide (p = path)) as [->|Hp].
  { by rewrite lookup_alter_eq, !lookup_insert_eq. }
  rewrite lookup_alter_ne, !(lookup_insert_ne _ path) by done.
  destruct (decide (p = path +:+ ".time")) as [->|Hp'].
  { by rewrite lookup_alter_eq, !lookup_insert_eq. }
  by rewrite lookup_alter_ne, !lookup_insert_ne by done.
Qed.

Lemma fetch_repodata_replaces_both_files_witness :
  ∃ input_repodata output_repodata,
    worker_document sample_world (fetch_session sample_world) sample_config
      "https://example.org/chan" "noarch" input_repodata output_repodata ∧
    files_after
      {[ "out/https%3A%2F/example.org/chan/noarch/repodata.json" := "old" ]}
      (fetch_repodata sample_world (fetch_session sample_world) "now"
         sample_config "https://example.org/chan" "noarch").1
    = <[output_file_path sample_config "https://example.org/chan" "noarch"
        := json_dump sample_world output_repodata (indent sample_config)
             (separators sample_config)]>
      (<[output_file_path sample_config "https://example.org/chan" "noarch"
         +:+ ".time" := print_line "now"]>
       {[ "out/https%3A%2F/example.org/chan/noarch/repodata.json" := "old" ]}).
Proof.
  apply (fetch_repodata_replaces_both_files sample_world
           (fetch_session sample_world) "now" sample_config
           "https://example.org/chan" "noarch").
  vm_compute. reflexivity.
Defined.

(** A response that is no HTTP error and whose body parses to a repodata
    document gives the worker its document. *)
Lemma worker_document_wf (w : world) (session : Session)
    (output_config : OutputConfig) (channel subdir : string)
    (status_code : Z) (text : string) (input_repodata : dict) :
  http_get w session (url_prefix channel subdir +:+ "/repodata.json")
  = HttpResponse status_code text →
  ¬ (400 ≤ status_code < 600) →
  json_loads w text = Some input_repodata →
  repodata_wf input_repodata →
  ∃ output_repodata,
    worker_document w session output_config channel subdir
      input_repodata output_repodata.
Proof.
  intros Hget Hok Hjson Hwf.
  destruct (cleanup_unneeded_info_spec
              (<[fresh (dom (∅ : heap)) := input_repodata]> ∅)
              (fresh (dom (∅ : heap))) input_repodata (trim_keys output_config)
              (lookup_insert_eq _ _ _) Hwf)
    as (h & out & output_repodata & Hclean & Hout & _).
  by exists output_repodata, status_code, text, h, out.
Qed.

(** X10: when the artifact of a repodata document cannot be opened, the
    worker has already replaced its companion: it raises [OSError],
    [repodata.json.time] holds the new timestamp, and [repodata.json] and
    every other file are as they were, so an older artifact is left beside
    the newer timestamp. *)
Theorem fetch_repodata_artifact_failure_keeps_new_timestamp (w : world)
    (session : Session) (timestamp : string) (output_config : OutputConfig)
    (channel subdir : string) (status_code : Z) (text : string)
    (input_repodata : dict) (fs : files) :
  let worker := fetch_repodata w session timestamp output_config channel subdir in
  let path := output_file_path output_config channel subdir in
  http_get w session (url_prefix channel subdir +:+ "/repodata.json")
  = HttpResponse status_code text →
  ¬ (400 ≤ status_code < 600) →
  json_loads w text = Some input_repodata →
  repodata_wf input_repodata →
  io_fails w (output_dir output_config channel subdir) = false →
  io_fails w (path +:+ ".time") = false →
  io_fails w path = true →
  worker.2 = Err (OSError path) ∧
  files_after fs worker.1 = <[path +:+ ".time" := print_line timestamp]> fs ∧
  files_after fs worker.1 !! path = fs !! path.
Proof.
  intros worker path Hget Hok Hjson Hwf Hdir Htime Hpath.
  destruct (worker_document_wf w session output_config channel subdir
              status_code text input_repodata Hget Hok Hjson Hwf)
    as [output_repodata Hdoc].
  unfold worker, path in *.
  rewrite (fetch_repodata_document _ _ _ _ _ _ _ _ Hdoc). cbv zeta.
  rewrite Hdir, Htime, Hpath. cbn [fst snd]. split; [done|].
  assert (files_after fs
            (take 6 (success_trace output_config timestamp channel subdir ""))
          = <[output_file_path output_config channel subdir +:+ ".time"
              := print_line timestamp]> fs) as ->.
  { unfold success_trace, files_after. simpl.
    apply map_eq. intros p.
    destruct (decide (p = output_file_path output_config channel subdir
                          +:+ ".time")) as [->|Hp].
    - by rewrite lookup_alter_eq, !lookup_insert_eq.
    - by rewrite lookup_alter_ne, !lookup_insert_ne by done. }
  split; [done|]. rewrite lookup_insert_ne; [done|].
  by apply string_app_neq.
Qed.

Lemma fetch_repodata_artifact_failure_keeps_new_timestamp_witness :
  (fetch_repodata read_only_artifact_world
     (fetch_session read_only_artifact_world) "now" sample_config
     "https://example.org/chan" "noarch").2
  = Err (OSError (output_file_path sample_config
                    "https://example.org/chan" "noarch")) ∧
  files_after
    {[ "out/https%3A%2F/example.org/chan/noarch/repodata.json" := "old" ]}
    (fetch_repodata read_only_artifact_world
       (fetch_session read_only_artifact_world) "now" sample_config
       "https://example.org/chan" "noarch").1
  = <[output_file_path sample_config "https://example.org/chan" "noarch"
      +:+ ".time" := print_line "now"]>
    {[ "out/https%3A%2F/example.org/chan/noarch/repodata.json" := "old" ]} ∧
  files_after
    {[ "out/https%3A%2F/example.org/chan/noarch/repodata.json" := "old" ]}
    (fetch_repodata read_only_artifact_world
       (fetch_session read_only_artifact_world) "now" sample_config
       "https://example.org/chan" "noarch").1
  !! output_file_path sample_config "https://example.org/chan" "noarch"
  = ({[ "out/https%3A%2F/example.org/chan/noarch/repodata.json" := "old" ]}
     : files)
    !! output_file_path sample_config "https://example.org/chan" "noarch".
Proof.
  apply (fetch_repodata_artifact_failure_keeps_new_timestamp
           read_only_artifact_world (fetch_session read_only_artifact_world)
           "now" sample_config "https://example.org/chan" "noarch"
           200 "{}" sample_repodata).
  - reflexivity.
  - lia.
  - reflexivity.
  - apply (bool_decide_unpack _). vm_compute. exact I.
  - reflexivity.
  - reflexivity.
  - reflexivity.
Defined.

Lemma fetch_repodata_without_trim_keys (w : world)
    (session : Session) (timestamp : string) (output_config : OutputConfig)
    (channel subdir : string) (status_code : Z) (text : string)
    (input_repodata : dict) :
  trim_keys output_config = [] →
  http_get w session (url_prefix channel subdir +:+ "/repodata.json")
  = HttpResponse status_code text →
  ¬ (400 ≤ status_code < 600) →
  json_loads w text = Some input_repodata →
  io_fails w (output_dir output_config channel subdir) = false →
  io_fails w (output_file_path output_config channel subdir +:+ ".time")
  = false →
  io_fails w (output_file_path output_config channel subdir) = false →
  fetch_repodata w session timestamp output_config channel subdir
  = (success_trace output_config timestamp channel subdir
       (json_dump w input_repodata (indent output_config)
          (separators output_config)),
     Ok (channel, subdir, true)).
Proof.
  intros Hkeys Hget Hok Hjson Hdir Htime Hpath.
  assert (worker_document w session output_config channel subdir
            input_repodata input_repodata) as Hdoc.
  { exists status_code, text. eexists _, _.
    split; [done|]. split; [done|]. split; [done|].
    rewrite Hkeys, cleanup_unneeded_info_empty. split; [done|].
    apply lookup_insert_eq. }
  rewrite (fetch_repodata_document _ _ _ _ _ _ _ _ Hdoc). simpl.
  by rewrite Hdir, Htime, Hpath.
Qed.

(** X11: with no trim keys the worker dumps the parsed document itself: a
    response that is no HTTP error and whose body parses to a mapping is
    written out untouched by the trimming, also when its [packages] is not a
    mapping of mappings. *)
Theorem fetch_repodata_without_trim_keys_dumps_parsed_document (w : world)
    (session : Session) (timestamp : string) (output_config : OutputConfig)
    (channel subdir : string) (status_code : Z) (text : string)
    (input_repodata : dict) :
  trim_keys output_config = [] →
  http_get w session (url_prefix channel subdir +:+ "/repodata.json")
  = HttpResponse status_code text →
  ¬ (400 ≤ status_code < 600) →
  json_loads w text = Some input_repodata →
  io_fails w (output_dir output_config channel subdir) = false →
  io_fails w (output_file_path output_config channel subdir +:+ ".time")
  = false →
  io_fails w (output_file_path output_config channel subdir) = false →
  fetch_repodata w session timestamp output_config channel subdir
  = (success_trace output_config timestamp channel subdir
       (json_dump w input_repodata (indent output_config)
          (separators output_config)),
     Ok (channel, subdir, true)).
Proof. apply fetch_repodata_without_trim_keys. Qed.

Lemma fetch_repodata_without_trim_keys_dumps_parsed_document_witness :
  fetch_repodata malformed_world (fetch_session malformed_world) "now"
    untrimmed_config "https://example.org/chan" "noarch"
  = (success_trace untrimmed_config "now" "https://example.org/chan" "noarch"
       (json_dump malformed_world malformed_repodata (indent untrimmed_config)
          (separators untrimmed_config)),
     Ok ("https://example.org/chan", "noarch", true)).
Proof.
  apply (fetch_repodata_without_trim_keys_dumps_parsed_document
           malformed_world (fetch_session malformed_world) "now"
           untrimmed_config "https://example.org/chan" "noarch" 200 "{}").
  - reflexivity.
  - reflexivity.
  - lia.
  - reflexivity.
  - reflexivity.
  - reflexivity.
  - reflexivity.
Defined.

(** X12: with trim keys, a document whose [packages] or [packages.conda] is
    not a mapping of mappings makes the worker raise [AttributeError] right
    after the request: no directory is created and no file is opened. *)
Theorem fetch_repodata_malformed_document_raises (w : world)
    (session : Session) (timestamp : string) (output_config : OutputConfig)
    (channel subdir : string) (status_code : Z) (text : string)
    (input_repodata : dict) :
  trim_keys output_config ≠ [] →
  http_get w session (url_prefix channel subdir +:+ "/repodata.json")
  = HttpResponse status_code text →
  ¬ (400 ≤ status_code < 600) →
  json_loads w text = Some input_repodata →
  ¬ repodata_wf input_repodata →
  fetch_repodata w session timestamp output_config channel subdir
  = (request_trace channel subdir, Err AttributeError).
Proof.
  intros Hkeys Hget Hok Hjson Hwf.
  pose proof (fetch_repodata_run w session timestamp output_config
                channel subdir) as Hrun.
  pose proof (cleanup_unneeded_info_live
    (<[fresh (dom (∅ : heap)) := input_repodata]> ∅) (fresh (dom (∅ : heap)))
    input_repodata (trim_keys output_config) (lookup_insert_eq _ _ _)) as Hlive.
  destruct (cleanup_unneeded_info _ _ _) as [[h out]|e] eqn:Hclean.
  { destruct (decide (repodata_wf input_repodata)) as [|_]; [done|].
    exfalso. clear Hrun Hlive.
    unfold cleanup_unneeded_info in Hclean.
    rewrite bool_decide_eq_false_2, lookup_insert_eq in Hclean by done.
    simpl in Hclean. unfold cleanup_step in Hclean. simpl in Hclean.
    apply Hwf. unfold repodata_wf, packages_keys.
    destruct (input_repodata !! "packages") as [v1|] eqn:H1;
      [destruct (trim_packages (trim_keys output_config) v1) as [t1|e1] eqn:Ht1;
         [apply trim_packages_Ok_wf in Ht1|done]|];
      simpl in Hclean;
      (destruct (input_repodata !! "packages.conda") as [v2|] eqn:H2;
        [destruct (trim_packages (trim_keys output_config) v2)
           as [t2|e2] eqn:Ht2;
           [apply trim_packages_Ok_wf in Ht2|done]|]);
      repeat (apply Forall_cons; split); try apply Forall_nil_2;
      rewrite ?H1, ?H2; done. }
  subst e.
  unfold fetch_repodata, raise_for_status, bind, emit, ret, raise, lift.
  simpl. rewrite Hget.
  destruct ((400 <=? status_code) && (status_code <? 600)) eqn:Hrange;
    [by apply status_range in Hrange|].
  rewrite Hjson. simpl. by rewrite Hclean.
Qed.

Lemma fetch_repodata_malformed_document_raises_witness :
  fetch_repodata malformed_world (fetch_session malformed_world) "now"
    sample_config "https://example.org/chan" "noarch"
  = (request_trace "https://example.org/chan" "noarch", Err AttributeError).
Proof.
  apply (fetch_repodata_malformed_document_raises
           malformed_world (fetch_session malformed_world) "now"
           sample_config "https://example.org/chan" "noarch" 200 "{}"
           malformed_repodata).
  - discriminate.
  - reflexivity.
  - lia.
  - reflexivity.
  - apply (bool_decide_unpack _). vm_compute. exact I.
Defined.

(** ** The output path, beyond the claims *)

Lemma re_sub_slashes_cons_ne (c : ascii) (t : string) :
  c ≠ "/"%char → re_sub_slashes (String c t) = String c (re_sub_slashes t).
Proof.
  intros Hc. destruct t as [|c' t]; [done|].
  cbn [re_sub_slashes]. by rewrite bool_decide_eq_false_2.
Qed.

Lemma re_sub_slashes_cons_next (c c' : ascii) (t : string) :
  c' ≠ "/"%char →
  re_sub_slashes (String c (String c' t))
  = String c (re_sub_slashes (String c' t)).
Proof.
  intros Hc. cbn [re_sub_slashes].
  rewrite (bool_decide_eq_false_2 (c' = "/"%char)) by done.
  by rewrite andb_false_r.
Qed.



(** What [urllib_quote] does with one character: it keeps it, and then it is
    no percent sign, or it writes a percent sign and two digits that are no
    slashes and that [percent_decode] reads back. *)
Lemma urllib_quote_char (c : ascii) :
  (is_unreserved c || bool_decide (c = "/"%char) = true ∧ c ≠ "%"%char) ∨
  (is_unreserved c || bool_decide (c = "/"%char) = false ∧
   c ≠ "/"%char ∧
   hex_digit (N_of_ascii c / 16) ≠ "/"%char ∧
   hex_digit (N_of_ascii c mod 16) ≠ "/"%char ∧
   ascii_of_N (16 * hex_value (hex_digit (N_of_ascii c / 16))
               + hex_value (hex_digit (N_of_ascii c mod 16))) = c).
Proof.
  destruct c as [[] [] [] [] [] [] [] []];
    first [ left; split; [vm_compute; reflexivity|discriminate]
          | right; split; [vm_compute; reflexivity|];
            split; [discriminate|];
            split; [vm_compute; discriminate|];
            split; [vm_compute; discriminate|]; vm_compute; reflexivity ].
Qed.

(** The first character of an encoded string is a slash only if the first
    character of the string is. *)
Lemma urllib_quote_head (c : ascii) (rest : string) :
  c ≠ "/"%char →
  ∃ x t, urllib_quote (String c rest) = String x t ∧ x ≠ "/"%char.
Proof.
  intros Hc. cbn [urllib_quote].
  destruct (is_unreserved c || bool_decide (c = "/"%char));
    eexists _, _; (split; [reflexivity|]); [done|discriminate].
Qed.




Lemma has_double_slash_cons (c : ascii) (t : string) :
  has_double_slash (String c t)
  = bool_decide (c = "/"%char) && starts_with_slash t || has_double_slash t.
Proof. destruct t; [|done]. simpl. by rewrite andb_false_r. Qed.

Lemma has_double_slash_cons_ne (c : ascii) (t : string) :
  c ≠ "/"%char → has_double_slash (String c t) = has_double_slash t.
Proof.
  intros Hc. by rewrite has_double_slash_cons, bool_decide_eq_false_2.
Qed.

Lemma has_triple_slash_cons (c : ascii) (rest : string) :
  has_triple_slash (String c rest) = false → has_triple_slash rest = false.
Proof.
  destruct rest as [|c' [|c'' t]]; try done.
  cbn [has_triple_slash]. by intros [_ ?]%orb_false_iff.
Qed.

Lemma starts_with_slash_encoded (s : string) :
  starts_with_slash s = false →
  starts_with_slash (re_sub_slashes (urllib_quote s)) = false.
Proof.
  destruct s as [|c rest]; [done|]. simpl starts_with_slash at 1.
  intros Hc%bool_decide_eq_false.
  destruct (urllib_quote_head c rest Hc) as (x & t & -> & Hx).
  rewrite re_sub_slashes_cons_ne by done. simpl.
  by apply bool_decide_eq_false_2.
Qed.

Lemma starts_with_slash_quote (s : string) :
  starts_with_slash s = false → starts_with_slash (urllib_quote s) = false.
Proof.
  destruct s as [|c rest]; [done|]. simpl starts_with_slash at 1.
  intros Hc%bool_decide_eq_false.
  destruct (urllib_quote_head c rest Hc) as (x & t & -> & Hx).
  by apply bool_decide_eq_false_2.
Qed.

Lemma re_sub_slashes_cons_no_start (c : ascii) (t : string) :
  starts_with_slash t = false →
  re_sub_slashes (String c t) = String c (re_sub_slashes t).
Proof.
  destruct t as [|c' t]; [done|]. simpl.
  intros Hc%bool_decide_eq_false. by apply re_sub_slashes_cons_next.
Qed.

Lemma encoded_no_double_slash (s : string) :
  has_triple_slash s = false →
  has_double_slash (re_sub_slashes (urllib_quote s)) = false.
Proof.
  assert (∀ (n : nat) s, (String.length s ≤ n)%nat →
            has_triple_slash s = false →
            has_double_slash (re_sub_slashes (urllib_quote s)) = false) as H.
  2:{ apply (H (String.length s)). lia. }
  clear s. intros n. induction n as [|n IH]; intros s Hn Hs.
  { destruct s; [done|]. cbn [String.length] in Hn. lia. }
  destruct s as [|c rest]; [done|]. cbn [String.length] in Hn.
  pose proof (has_triple_slash_cons _ _ Hs) as Hrest.
  destruct (urllib_quote_char c)
    as [[Hkeep Hpc]|(Hkeep & Hslash & Hx & Hy & Hback)];
    cbn [urllib_quote]; rewrite Hkeep.
  - destruct (decide (c = "/"%char)) as [->|Hslash].
    + destruct rest as [|c' rest']; [done|].
      destruct (decide (c' = "/"%char)) as [->|Hc'].
      * cbn [String.length] in Hn.
        pose proof (has_triple_slash_cons _ _ Hrest) as Hrest'.
        assert (starts_with_slash rest' = false) as Hstart.
        { destruct rest' as [|c'' t]; [done|].
          cbn [has_triple_slash] in Hs.
          apply orb_false_iff in Hs as [Hs _]. simpl in Hs. done. }
        change (has_double_slash
                  (String "%" (String "2" (String "F" (String "/"
                     (re_sub_slashes (urllib_quote rest'))))))
                = false).
        rewrite !has_double_slash_cons_ne by discriminate.
        rewrite has_double_slash_cons, starts_with_slash_encoded by done.
        rewrite andb_false_r, orb_false_l. apply IH; [lia|done].
      * assert (starts_with_slash (String c' rest') = false) as Hstart.
        { by apply bool_decide_eq_false_2. }
        rewrite re_sub_slashes_cons_no_start
          by by apply starts_with_slash_quote.
        rewrite has_double_slash_cons, starts_with_slash_encoded by done.
        rewrite andb_false_r, orb_false_l. apply IH; [lia|done].
    + rewrite re_sub_slashes_cons_ne, has_double_slash_cons_ne by done.
      apply IH; [lia|done].
  - rewrite !re_sub_slashes_cons_ne by (done || discriminate).
    rewrite !has_double_slash_cons_ne by (done || discriminate).
    apply IH; [lia|done].
Qed.

(** X14: the directory of a target under the output root has no empty path
    component unless the URL has three slashes in a row: when
    [{channel}/{subdir}] has no [///], its encoding has no [//], the [//] of
    the URL scheme included. *)
Theorem output_subdir_has_no_double_slash (channel subdir : string) :
  has_triple_slash (url_prefix channel subdir) = false →
  has_double_slash (re_sub_slashes (urllib_quote (url_prefix channel subdir)))
  = false.
Proof. apply encoded_no_double_slash. Qed.

Lemma output_subdir_has_no_double_slash_witness :
  has_double_slash
    (re_sub_slashes (urllib_quote
       (url_prefix "https://conda.anaconda.org/bioconda" "linux-64")))
  = false.
Proof.
  apply (output_subdir_has_no_double_slash
           "https://conda.anaconda.org/bioconda" "linux-64").
  reflexivity.
Defined.

(** ** The run, beyond the claims *)

Lemma targets_nil_r (channels : list string) : targets channels [] = [].
Proof. done. Qed.

Lemma targets_nil_l (subdirs : list string) : targets [] subdirs = [].
Proof. unfold targets. by induction subdirs. Qed.

Lemma targets_cons (channels subdirs : list string) (subdir : string) :
  targets channels (subdir :: subdirs)
  = ((λ channel, (channel, subdir)) <$> channels) ++ targets channels subdirs.
Proof.
  unfold targets. cbn [mbind list_bind]. f_equal.
Qed.

Lemma length_targets (channels subdirs : list string) :
  length (targets channels subdirs)
  = (length subdirs * length channels)%nat.
Proof.
  induction subdirs as [|s subdirs IH]; [done|].
  rewrite targets_cons, length_app, length_fmap, IH. simpl. lia.
Qed.

(** X15: once the clock has answered, [fetch] submits one worker for every
    pair of a subdir and a channel, subdir by subdir and within a subdir
    channel by channel, and the requests of the workers are, in that order,
    those for [{channel}/{subdir}/repodata.json]; this does not depend on how
    the run ends. *)
Theorem fetch_submits_every_target_once (w : world)
    (output_config : OutputConfig) (channels subdirs : list string)
    (timestamp : string) :
  (get_ntp_time w).2 = Ok timestamp →
  let r := fetch w output_config channels subdirs in
  length (workers r) = (length subdirs * length channels)%nat ∧
  omap requested_url (concat (workers r))
  = (subdir ← subdirs; channel ← channels;
     [ channel +:+ "/" +:+ subdir +:+ "/repodata.json" ]).
Proof.
  intros Hclock r.
  destruct (fetch_clock_Ok w output_config channels subdirs timestamp Hclock)
    as (_ & Hworkers & _). fold r in Hworkers. rewrite Hworkers.
  split.
  { by rewrite !length_fmap, length_targets. }
  clear Hworkers r Hclock.
  induction subdirs as [|subdir subdirs IH]; [done|].
  rewrite targets_cons, !fmap_app, concat_app, omap_app, IH.
  cbn [mbind list_bind]. f_equal.
  clear IH. induction channels as [|channel channels IH]; [done|].
  cbn [fmap list_fmap concat mbind list_bind].
  rewrite omap_app. unfold submit at 1. cbn [fst snd].
  rewrite fetch_repodata_requests. simpl. f_equal.
  - unfold url_prefix. by rewrite !string_app_assoc.
  - apply IH.
Qed.

Lemma fetch_submits_every_target_once_witness :
  let r :=
    fetch sample_world sample_config
      ["https://example.org/chan"; "https://example.org/gone"]
      ["noarch"; "linux-64"] in
  length (workers r) = (2 * 2)%nat ∧
  omap requested_url (concat (workers r))
  = (subdir ← ["noarch"; "linux-64"];
     channel ← ["https://example.org/chan"; "https://example.org/gone"];
     [ channel +:+ "/" +:+ subdir +:+ "/repodata.json" ]).
Proof.
  apply (fetch_submits_every_target_once sample_world sample_config
           ["https://example.org/chan"; "https://example.org/gone"]
           ["noarch"; "linux-64"] "2023-11-14T23:13:20+00:00").
  vm_compute. reflexivity.
Defined.

(** X16: with nothing to fetch no worker is started.  Without subdirs every
    channel stays unfetched, so with some channel the run raises
    [FetchError] naming all of them and writes nothing; without channels
    nothing is unfetched, and the run writes its timestamp file and
    returns. *)
Theorem fetch_without_targets (w : world) (output_config : OutputConfig)
    (channels subdirs : list string) (timestamp : string) :
  (get_ntp_time w).2 = Ok timestamp →
  channels = [] ∨ subdirs = [] →
  let r := fetch w output_config channels subdirs in
  workers r = [] ∧
  (channels ≠ [] →
   outcome r
   = Err (FetchError "No repodata.json found for any subdir in channels %s ."
            (Some (list_to_set channels))) ∧
   main_after r = []) ∧
  (channels = [] → io_fails w (root_time_path output_config) = false →
   outcome r = Ok tt ∧
   main_after r = [ EvOpen (root_time_path output_config);
                    EvWrite (root_time_path output_config)
                      (print_line timestamp) ]).
Proof.
  intros Hclock Hnone r.
  assert (targets channels subdirs = []) as Htargets.
  { destruct Hnone as [-> | ->]; [apply targets_nil_l|apply targets_nil_r]. }
  destruct (fetch_clock_Ok w output_config channels subdirs timestamp Hclock)
    as (_ & Hworkers & Hend). fold r in Hworkers, Hend.
  unfold pool_results in Hend. rewrite Htargets in Hworkers, Hend.
  split; [done|]. simpl in Hend.
  change (as_completed w []) with (@nil (io (string * string * bool))) in Hend.
  simpl in Hend. split.
  - intros Hne. rewrite decide_True in Hend; [done|].
    destruct channels as [|c channels]; [done|].
    intros Hempty. apply (not_elem_of_empty (C:=gset string) c).
    rewrite <- Hempty. apply elem_of_list_to_set, list_elem_of_here.
  - intros -> Hio. rewrite decide_False in Hend by (by intros []).
    by rewrite Hio in Hend.
Qed.

Lemma fetch_without_targets_witness :
  let r := fetch sample_world sample_config ["https://example.org/chan"] [] in
  workers r = [] ∧
  (["https://example.org/chan"] ≠ [] →
   outcome r
   = Err (FetchError "No repodata.json found for any subdir in channels %s ."
            (Some (list_to_set ["https://example.org/chan"]))) ∧
   main_after r = []) ∧
  (["https://example.org/chan"] = [] →
   io_fails sample_world (root_time_path sample_config) = false →
   outcome r = Ok tt ∧
   main_after r = [ EvOpen (root_time_path sample_config);
                    EvWrite (root_time_path sample_config)
                      (print_line "2023-11-14T23:13:20+00:00") ]).
Proof.
  apply (fetch_without_targets sample_world sample_config
           ["https://example.org/chan"] [] "2023-11-14T23:13:20+00:00").
  - vm_compute. reflexivity.
  - right. reflexivity.
Defined.

Lemma pool_results_returned (w : world) (output_config : OutputConfig)
    (channels subdirs : list string) (timestamp : string) :
  Forall is_Ok (pool_results w output_config channels subdirs timestamp) ↔
  ∀ channel subdir, channel ∈ channels → subdir ∈ subdirs →
    is_Ok (fetch_repodata w (fetch_session w) timestamp output_config
             channel subdir).2.
Proof.
  rewrite Forall_forall. split.
  - intros H channel subdir Hc Hs. apply H, elem_of_pool_results. eauto.
  - intros H res (channel & subdir & Hc & Hs & ->)%elem_of_pool_results.
    by apply H.
Qed.

Lemma collect_first_error (returned rest : list (result (string * string * bool)))
    (e : exn) (unfetched_channels : gset string) :
  Forall is_Ok returned →
  collect unfetched_channels (returned ++ Err e :: rest) = Err e.
Proof.
  intros Hall. revert unfetched_channels.
  induction Hall as [|[[[c s] b]|e0] returned Hok _ IH]; intros u;
    [done| |done].
  simpl. apply IH.
Qed.

(** X17: [fetch] returns exactly when the clock answered, every worker
    returned an outcome, each channel has a subdir whose worker returned
    [success=True], and the timestamp file of the run could be opened. *)
Theorem fetch_returns_iff (w : world) (output_config : OutputConfig)
    (channels subdirs : list string) :
  outcome (fetch w output_config channels subdirs) = Ok tt ↔
  ∃ timestamp,
    (get_ntp_time w).2 = Ok timestamp ∧
    (∀ channel subdir, channel ∈ channels → subdir ∈ subdirs →
       is_Ok (fetch_repodata w (fetch_session w) timestamp output_config
                channel subdir).2) ∧
    (∀ channel, channel ∈ channels →
       ∃ subdir, subdir ∈ subdirs ∧
         (fetch_repodata w (fetch_session w) timestamp output_config
            channel subdir).2 = Ok (channel, subdir, true)) ∧
    io_fails w (root_time_path output_config) = false.
Proof.
  destruct (get_ntp_time w).2 as [timestamp|e] eqn:Hclock.
  2:{ rewrite (fetch_clock_Err _ _ _ _ e Hclock). simpl.
      split; [done|]. by intros (timestamp & ? & _). }
  destruct (fetch_clock_Ok w output_config channels subdirs timestamp Hclock)
    as (_ & _ & Hend).
  set (results := pool_results w output_config channels subdirs timestamp) in *.
  destruct (decide (Forall is_Ok results)) as [Hok|Hnot].
  2:{ apply not_Forall_Exists in Hnot; [|apply _].
      apply Exists_exists in Hnot as (res & Hin & Hres).
      destruct res as [?|e]; [by destruct Hres|].
      apply (collect_Err _ (list_to_set channels)) in Hin as (e' & Hcol & Hin).
      rewrite Hcol in Hend. destruct Hend as [-> _]. split; [done|].
      intros (timestamp' & [= <-] & Hall & _).
      apply (proj2 (pool_results_returned _ _ _ _ _)) in Hall.
      rewrite Forall_forall in Hall.
      by destruct (Hall _ Hin). }
  destruct (collect_Ok results (list_to_set channels) Hok)
    as (unfetched & Hcol & Hleft).
  rewrite Hcol in Hend.
  assert (Hsuccess : unfetched = ∅ ↔
    ∀ channel, channel ∈ channels →
      ∃ subdir, subdir ∈ subdirs ∧
        (fetch_repodata w (fetch_session w) timestamp output_config
           channel subdir).2 = Ok (channel, subdir, true)).
  { split.
    - intros -> channel Hc.
      destruct (decide (Exists (λ subdir,
                  (fetch_repodata w (fetch_session w) timestamp output_config
                     channel subdir).2 = Ok (channel, subdir, true)) subdirs))
        as [Hex|Hno].
      + apply Exists_exists in Hex as (subdir & Hs & Hres). by exists subdir.
      + exfalso. apply (not_elem_of_empty (C:=gset string) channel).
        apply Hleft. split; [by apply elem_of_list_to_set|].
        intros subdir Hin.
        apply elem_of_pool_results in Hin as (c & s & _ & Hs & Hres).
        symmetry in Hres.
        destruct (fetch_repodata_echo _ _ _ _ _ _ _ _ _ Hres) as [<- <-].
        apply Hno, Exists_exists. by exists subdir.
    - intros Hall. apply set_eq. intros channel.
      rewrite Hleft, elem_of_list_to_set. split; [|by intros ?%not_elem_of_empty].
      intros [Hc Hnone]. destruct (Hall channel Hc) as (subdir & Hs & Hres).
      destruct (Hnone subdir). apply elem_of_pool_results.
      exists channel, subdir. by rewrite Hres. }
  pose proof (proj1 (pool_results_returned _ _ _ _ _) Hok) as Hreturned.
  destruct (decide (unfetched ≠ ∅)) as [Hne|Hempty].
  - destruct Hend as [-> _]. split; [done|].
    intros (timestamp' & [= <-] & _ & Hall & _).
    by apply (proj2 Hsuccess) in Hall.
  - assert (unfetched = ∅) as Hu by (by destruct (decide (unfetched = ∅))).
    pose proof (proj1 Hsuccess Hu) as Hall.
    destruct (io_fails w _) eqn:Hio; destruct Hend as [-> _].
    + split; [done|]. by intros (_ & _ & _ & _ & ?).
    + split; [|done]. intros _. by exists timestamp.
Qed.

(** X18: when workers raise, [fetch] raises what the first of them in the
    order of completion raised: the results that [as_completed] yields are
    taken one by one, and the first that is an exception ends the loop, so
    the exception of a worker that completes later is never seen and nothing
    is written after the pool. *)
Theorem fetch_raises_first_completed_error (w : world)
    (output_config : OutputConfig) (channels subdirs : list string)
    (timestamp : string)
    (returned rest : list (result (string * string * bool))) (e : exn) :
  (get_ntp_time w).2 = Ok timestamp →
  snd <$> as_completed w
            (submit w (fetch_session w) timestamp output_config
             <$> targets channels subdirs)
  = returned ++ Err e :: rest →
  Forall is_Ok returned →
  let r := fetch w output_config channels subdirs in
  outcome r = Err e ∧ main_after r = [].
Proof.
  intros Hclock Hresults Hok r.
  destruct (fetch_clock_Ok w output_config channels subdirs timestamp Hclock)
    as (_ & _ & Hend). fold r in Hend.
  unfold pool_results in Hend.
  by rewrite Hresults, collect_first_error in Hend.
Qed.

Lemma fetch_raises_first_completed_error_witness :
  let r :=
    fetch sample_world sample_config
      ["https://example.org/chan"; "https://example.org/broken"] ["noarch"] in
  outcome r = Err (HTTPError 500) ∧ main_after r = [].
Proof.
  apply (fetch_raises_first_completed_error sample_world sample_config
           ["https://example.org/chan"; "https://example.org/broken"]
           ["noarch"] "2023-11-14T23:13:20+00:00"
           [Ok ("https://example.org/chan", "noarch", true)] []).
  - vm_compute. reflexivity.
  - vm_compute. reflexivity.
  - apply Forall_cons. split; [exact I|apply Forall_nil_2].
Defined.

(** ** The command line *)

(** One call of the action on an attribute in either of its states. *)
Lemma AppendDefaultAction_call_attribute (h : objects) (default items : loc)
    (given : list string) (values : string) :
  is_Some (h !! default) →
  list_attribute h default items given →
  ∃ h' items',
    AppendDefaultAction_call (PyRef default) h (PyRef items) values
    = Ok (h', items') ∧
    list_attribute h' default items' (given ++ [values]) ∧
    (h !! items' = None ∨ items' = items ∧ h !! items = Some (PyList given)) ∧
    ∀ l, l ≠ items' → h' !! l = h !! l.
Proof.
  intros Hdefault [[-> ->]|(Hgiven & Hne & Hitems)];
    unfold AppendDefaultAction_call.
  - rewrite bool_decide_eq_true_2 by (by left).
    assert (h !! fresh (dom h) = None) as Hfresh.
    { apply not_elem_of_dom, is_fresh. }
    eexists _, _. split; [done|]. split; [|split; [by left|]].
    + right. split; [done|]. split; [|apply lookup_insert_eq].
      intros Heq. rewrite Heq in Hfresh. rewrite Hfresh in Hdefault.
      by destruct Hdefault.
    + intros l Hl. by rewrite lookup_insert_ne.
  - rewrite bool_decide_eq_false_2 by (intros [[= ?]|[=]]; done).
    rewrite Hitems. eexists _, _. split; [done|].
    split; [|split; [by right|]].
    + right. split; [by destruct given|]. split; [done|].
      apply lookup_insert_eq.
    + intros l Hl. by rewrite lookup_insert_ne.
Qed.

Lemma list_attribute_frame (h h' : objects) (default items : loc)
    (given : list string) :
  list_attribute h default items given →
  h' !! items = h !! items →
  list_attribute h' default items given.
Proof.
  intros [[-> ->]|(? & ? & Hitems)] Heq; [by left|].
  right. by rewrite Heq.
Qed.

Lemma list_attribute_is_Some (h : objects) (default items : loc)
    (given : list string) :
  is_Some (h !! default) → list_attribute h default items given →
  is_Some (h !! items).
Proof. intros Hd [[_ ->]|(_ & _ & ->)]; [done|by eexists]. Qed.

Lemma list_attribute_strings_of (h : objects) (default items : loc)
    (given strings : list string) :
  h !! default = Some (PyTuple strings) →
  list_attribute h default items given →
  strings_of h items = Ok (values_or_default given strings).
Proof.
  unfold strings_of, values_or_default.
  intros Hd [[-> ->]|(Hne & _ & ->)]; [by rewrite Hd|].
  by rewrite decide_False.
Qed.

Lemma has_trim_snoc (seen : list option_use) (use : option_use) :
  has_trim (seen ++ [use])
  = if decide (use = UseTrim) then true else has_trim seen.
Proof.
  unfold has_trim. case_decide as Huse.
  - subst. apply bool_decide_eq_true_2, elem_of_app. right. apply list_elem_of_here.
  - apply bool_decide_ext. rewrite elem_of_app, list_elem_of_singleton.
    split; [|by left]. by intros [?|?].
Qed.

(** Each use of an option keeps the state of the parse. *)
Lemma take_option_parsed (cwd : string) (h : objects)
    (namespace : Namespace.t) (seen : list option_use) (use : option_use) :
  parsed h namespace seen →
  ∃ h' namespace',
    take_option (get_argument_parser cwd) h namespace use
    = Ok (h', namespace') ∧
    parsed h' namespace' (seen ++ [use]).
Proof.
  intros [Hd1 Hd2 Hd3 Ha1 Ha2 Ha3 H12 H13 H23 Htrim].
  assert (is_Some (h !! Namespace.channel namespace)) as Hs1.
  { eapply list_attribute_is_Some; [|done]. by eexists. }
  assert (is_Some (h !! Namespace.subdirs namespace)) as Hs2.
  { eapply list_attribute_is_Some; [|done]. by eexists. }
  assert (is_Some (h !! Namespace.trim_keys namespace)) as Hs3.
  { eapply list_attribute_is_Some; [|done]. by eexists. }
  destruct use as [value|value|value|value| |value|value];
    cbn [take_option get_argument_parser parser_defaults
         Namespace.channel Namespace.subdirs Namespace.trim_keys].
  - destruct (AppendDefaultAction_call_attribute h 1%positive
                (Namespace.channel namespace) (channel_values seen) value)
      as (h' & items' & -> & Ha1' & Hnew & Hframe); [by eexists|done|].
    assert (∀ l, is_Some (h !! l) → l ≠ Namespace.channel namespace →
                 l ≠ items') as Hother.
    { intros l Hl Hne ->. destruct Hnew as [Hnone|[? _]]; [|done].
      rewrite Hnone in Hl. by destruct Hl. }
    assert (∀ l strings, h !! l = Some (PyTuple strings) → l ≠ items') as Htuple.
    { intros l strings Hl ->. destruct Hnew as [Hnone|[-> Hlist]]; congruence. }
    eexists _, _. split; [done|].
    split; cbn [Namespace.channel Namespace.subdirs Namespace.trim_keys
                Namespace.trim];
      unfold channel_values, subdir_values, trim_key_values;
      rewrite ?omap_app, ?has_trim_snoc; cbn [omap list_omap];
      rewrite ?app_nil_r;
      try (rewrite Hframe by eauto; done).
    + done.
    + eapply list_attribute_frame; [done|]. apply Hframe. eauto.
    + eapply list_attribute_frame; [done|]. apply Hframe. eauto.
    + apply not_eq_sym. eauto.
    + apply not_eq_sym. eauto.
    + done.
    + done.
  - destruct (AppendDefaultAction_call_attribute h 2%positive
                (Namespace.subdirs namespace) (subdir_values seen) value)
      as (h' & items' & -> & Ha2' & Hnew & Hframe); [by eexists|done|].
    assert (∀ l, is_Some (h !! l) → l ≠ Namespace.subdirs namespace →
                 l ≠ items') as Hother.
    { intros l Hl Hne ->. destruct Hnew as [Hnone|[? _]]; [|done].
      rewrite Hnone in Hl. by destruct Hl. }
    assert (∀ l strings, h !! l = Some (PyTuple strings) → l ≠ items') as Htuple.
    { intros l strings Hl ->. destruct Hnew as [Hnone|[-> Hlist]]; congruence. }
    eexists _, _. split; [done|].
    split; cbn [Namespace.channel Namespace.subdirs Namespace.trim_keys
                Namespace.trim];
      unfold channel_values, subdir_values, trim_key_values;
      rewrite ?omap_app, ?has_trim_snoc; cbn [omap list_omap];
      rewrite ?app_nil_r;
      try (rewrite Hframe by eauto; done).
    + eapply list_attribute_frame; [done|]. apply Hframe. eauto.
    + done.
    + eapply list_attribute_frame; [done|]. apply Hframe. eauto.
    + eauto.
    + done.
    + apply not_eq_sym. eauto.
    + done.
  - eexists _, _. split; [done|].
    split; cbn; unfold channel_values, subdir_values, trim_key_values;
      rewrite ?omap_app, ?has_trim_snoc; cbn [omap list_omap];
      rewrite ?app_nil_r; done.
  - eexists _, _. split; [done|].
    split; cbn; unfold channel_values, subdir_values, trim_key_values;
      rewrite ?omap_app, ?has_trim_snoc; cbn [omap list_omap];
      rewrite ?app_nil_r; done.
  - eexists _, _. split; [done|].
    split; cbn; unfold channel_values, subdir_values, trim_key_values;
      rewrite ?omap_app, ?has_trim_snoc; cbn [omap list_omap];
      rewrite ?app_nil_r; done.
  - destruct (AppendDefaultAction_call_attribute h 3%positive
                (Namespace.trim_keys namespace) (trim_key_values seen) value)
      as (h' & items' & -> & Ha3' & Hnew & Hframe); [by eexists|done|].
    assert (∀ l, is_Some (h !! l) → l ≠ Namespace.trim_keys namespace →
                 l ≠ items') as Hother.
    { intros l Hl Hne ->. destruct Hnew as [Hnone|[? _]]; [|done].
      rewrite Hnone in Hl. by destruct Hl. }
    assert (∀ l strings, h !! l = Some (PyTuple strings) → l ≠ items') as Htuple.
    { intros l strings Hl ->. destruct Hnew as [Hnone|[-> Hlist]]; congruence. }
    eexists _, _. split; [done|].
    split; cbn [Namespace.channel Namespace.subdirs Namespace.trim_keys
                Namespace.trim];
      unfold channel_values, subdir_values, trim_key_values;
      rewrite ?omap_app, ?has_trim_snoc; cbn [omap list_omap];
      rewrite ?app_nil_r;
      try (rewrite Hframe by eauto; done).
    + eapply list_attribute_frame; [done|]. apply Hframe. eauto.
    + eapply list_attribute_frame; [done|]. apply Hframe. eauto.
    + done.
    + done.
    + eauto.
    + eauto.
    + done.
  - eexists _, _. split; [done|].
    split; cbn; unfold channel_values, subdir_values, trim_key_values;
      rewrite ?omap_app, ?has_trim_snoc; cbn [omap list_omap];
      rewrite ?app_nil_r; done.
Qed.

Lemma take_options_parsed (cwd : string) (argv : list option_use) (h : objects)
    (namespace : Namespace.t) (seen : list option_use) :
  parsed h namespace seen →
  ∃ h' namespace',
    take_options (get_argument_parser cwd) h namespace argv
    = Ok (h', namespace') ∧
    parsed h' namespace' (seen ++ argv).
Proof.
  revert h namespace seen.
  induction argv as [|use argv IH]; intros h namespace seen Hparsed.
  { exists h, namespace. by rewrite app_nil_r. }
  destruct (take_option_parsed cwd h namespace seen use Hparsed)
    as (h1 & namespace1 & Htake & Hparsed1).
  destruct (IH h1 namespace1 (seen ++ [use]) Hparsed1)
    as (h' & namespace' & Hrest & Hparsed').
  exists h', namespace'. cbn [take_options]. rewrite Htake. simpl.
  split; [done|]. by rewrite <- app_assoc in Hparsed'.
Qed.

Lemma get_argument_parser_parsed (cwd : string) :
  parsed (parser_objects (get_argument_parser cwd))
    (parser_defaults (get_argument_parser cwd)) [].
Proof. split; try done; by left. Qed.

Lemma ArgumentParser_parse_args_parsed (cwd : string) (argv : list option_use) :
  ∃ h args,
    ArgumentParser_parse_args (get_argument_parser cwd) argv = Ok (h, args) ∧
    parsed h args argv.
Proof.
  apply (take_options_parsed cwd argv _ _ []), get_argument_parser_parsed.
Qed.

(** What [parse_args] returns for the program's parser. *)
Lemma parse_args_parsed (cwd : string) (argv : list option_use) :
  ∃ log_level output_config,
    parse_args (get_argument_parser cwd) argv
    = Ok (log_level, output_config,
          values_or_default (channel_values argv) _DEFAULT_CHANNELS,
          values_or_default (subdir_values argv) _DEFAULT_SUBDIRS) ∧
    trim_keys output_config
    = if has_trim argv then
        elements (list_to_set
                    (values_or_default (trim_key_values argv) default_trim_keys)
                  : gset string)
      else [].
Proof.
  destruct (ArgumentParser_parse_args_parsed cwd argv)
    as (h & args & Hparse & [Hd1 Hd2 Hd3 Ha1 Ha2 Ha3 _ _ _ Htrim]).
  unfold parse_args. rewrite Hparse. simpl.
  rewrite (list_attribute_strings_of _ _ _ _ _ Hd1 Ha1). simpl.
  rewrite (list_attribute_strings_of _ _ _ _ _ Hd2 Ha2). simpl.
  rewrite Htrim. destruct (has_trim argv).
  - rewrite (list_attribute_strings_of _ _ _ _ _ Hd3 Ha3). simpl.
    by eexists _, _.
  - simpl. by eexists _, _.
Qed.

(** X19: the first use of [--channel] or [--subdir] replaces the defaults
    and later uses add to it: [parse_args] with the program's parser returns
    the values given, in the order of the command line, and the defaults only
    when the option is not used at all. *)
Theorem parse_args_given_values_replace_defaults (cwd : string)
    (argv : list option_use) :
  ∃ log_level output_config,
    parse_args (get_argument_parser cwd) argv
    = Ok (log_level, output_config,
          if decide (channel_values argv = []) then _DEFAULT_CHANNELS
          else channel_values argv,
          if decide (subdir_values argv = []) then _DEFAULT_SUBDIRS
          else subdir_values argv).
Proof.
  destruct (parse_args_parsed cwd argv) as (log_level & output_config & H & _).
  by exists log_level, output_config.
Qed.

(** X20: [--trim-key] has no effect without [--trim]: the trim keys that
    [parse_args] returns are empty exactly when [--trim] is not on the
    command line, and with [--trim] they are the keys given with
    [--trim-key], or the default keys when none is given, each once. *)
Theorem parse_args_trim_keys_need_trim (cwd : string) (argv : list option_use) :
  ∃ log_level output_config channels subdirs,
    parse_args (get_argument_parser cwd) argv
    = Ok (log_level, output_config, channels, subdirs) ∧
    (trim_keys output_config = [] ↔ UseTrim ∉ argv) ∧
    (UseTrim ∈ argv →
     NoDup (trim_keys output_config) ∧
     ∀ key, key ∈ trim_keys output_config ↔
       key ∈ (if decide (trim_key_values argv = []) then default_trim_keys
              else trim_key_values argv)).
Proof.
  destruct (parse_args_parsed cwd argv)
    as (log_level & output_config & H & Hkeys).
  exists log_level, output_config. eexists _, _. split; [exact H|].
  rewrite Hkeys. unfold has_trim. clear H Hkeys.
  set (keys := values_or_default (trim_key_values argv) default_trim_keys).
  assert (∃ key, key ∈ keys) as [key Hkey].
  { unfold keys, values_or_default. case_decide as Hgiven.
    - eexists. apply list_elem_of_here.
    - destruct (trim_key_values argv) as [|key ?]; [by destruct Hgiven|].
      exists key. apply list_elem_of_here. }
  assert (∀ key, key ∈ elements (list_to_set keys : gset string) ↔ key ∈ keys)
    as Hmem.
  { intros key'. rewrite elem_of_elements. apply elem_of_list_to_set. }
  case_bool_decide as Htrim.
  - split; [split|].
    + intros Hnil. exfalso. apply Hmem in Hkey. rewrite Hnil in Hkey.
      by apply elem_of_nil in Hkey.
    + intros Hno. by destruct Hno.
    + intros _. split; [apply NoDup_elements|exact Hmem].
  - split; [split; [by intros _|reflexivity]|].
    intros Hyes. by destruct Htrim.
Qed.

(** X21: a call of [AppendDefaultAction] returns a list that ends with the
    value and never changes the object of its default: when the attribute
    holds the default (or [None]) the list is a new one holding only the
    value, otherwise it is the attribute's own list, extended in place; no
    other object is touched. *)
Theorem AppendDefaultAction_call_keeps_default (self_default items : pyref)
    (h h' : objects) (values : string) (l : loc) :
  AppendDefaultAction_call self_default h items values = Ok (h', l) →
  (∃ old,
     h' !! l = Some (PyList (old ++ [values])) ∧
     (items = self_default ∨ items = PyNone → old = [] ∧ h !! l = None) ∧
     (items ≠ self_default → items ≠ PyNone →
      items = PyRef l ∧ h !! l = Some (PyList old))) ∧
  (∀ l', l' ≠ l → h' !! l' = h !! l') ∧
  (∀ d, self_default = PyRef d → is_Some (h !! d) → h' !! d = h !! d).
Proof.
  unfold AppendDefaultAction_call. intros Hcall.
  assert (h !! fresh (dom h) = None) as Hfresh.
  { apply not_elem_of_dom, is_fresh. }
  case_bool_decide as Hitems.
  - injection Hcall as <- <-. split; [|split].
    + exists []. split; [apply lookup_insert_eq|]. split; [done|].
      intros Hne Hnone. by destruct Hitems.
    + intros l' Hl'. by rewrite lookup_insert_ne.
    + intros d _ Hd. rewrite lookup_insert_ne; [done|].
      intros Heq. rewrite Heq in Hfresh. rewrite Hfresh in Hd. by destruct Hd.
  - destruct items as [|items]; [done|].
    destruct (h !! items) as [[strings|old]|] eqn:Hold; try done.
    injection Hcall as <- <-. split; [|split].
    + exists old. split; [apply lookup_insert_eq|]. split; [|done].
      intros Hyes. by destruct Hitems.
    + intros l' Hl'. by rewrite lookup_insert_ne.
    + intros d -> _. rewrite lookup_insert_ne; [done|].
      intros ->. apply Hitems. by left.
Qed.

Lemma AppendDefaultAction_call_keeps_default_witness :
  let h := parser_objects (get_argument_parser "/srv") in
  (∃ old,
     <[fresh (dom h) := PyList ["noarch"]]> h !! fresh (dom h)
     = Some (PyList (old ++ ["noarch"])) ∧
     (PyRef 2 = PyRef 2 ∨ PyRef 2 = PyNone →
      old = [] ∧ h !! fresh (dom h) = None) ∧
     (PyRef 2 ≠ PyRef 2 → PyRef 2 ≠ PyNone →
      PyRef 2 = PyRef (fresh (dom h)) ∧
      h !! fresh (dom h) = Some (PyList old))) ∧
  (∀ l', l' ≠ fresh (dom h) →
     <[fresh (dom h) := PyList ["noarch"]]> h !! l' = h !! l') ∧
  (∀ d, PyRef 2 = PyRef d → is_Some (h !! d) →
     <[fresh (dom h) := PyList ["noarch"]]> h !! d = h !! d).
Proof.
  apply (AppendDefaultAction_call_keeps_default (PyRef 2) (PyRef 2)
           (parser_objects (get_argument_parser "/srv"))).
  reflexivity.
Defined.

(** X22: without [--trim], [main] archives the documents as they were
    parsed: it runs [fetch] on the channels and subdirs of the command line,
    or the defaults, with a configuration under which every worker that gets
    a response that is no HTTP error and can write its files dumps the
    document that the body parsed to. *)
Theorem main_without_trim_dumps_parsed_documents (w : world) (cwd : string)
    (argv : list option_use) :
  UseTrim ∉ argv →
  ∃ output_config,
    main w cwd argv
    = Ok (fetch w output_config
            (if decide (channel_values argv = []) then _DEFAULT_CHANNELS
             else channel_values argv)
            (if decide (subdir_values argv = []) then _DEFAULT_SUBDIRS
             else subdir_values argv)) ∧
    ∀ timestamp channel subdir status_code text input_repodata,
      http_get w (fetch_session w)
        (url_prefix channel subdir +:+ "/repodata.json")
      = HttpResponse status_code text →
      ¬ (400 ≤ status_code < 600) →
      json_loads w text = Some input_repodata →
      io_fails w (output_dir output_config channel subdir) = false →
      io_fails w (output_file_path output_config channel subdir +:+ ".time")
      = false →
      io_fails w (output_file_path output_config channel subdir) = false →
      fetch_repodata w (fetch_session w) timestamp output_config channel subdir
      = (success_trace output_config timestamp channel subdir
           (json_dump w input_repodata (indent output_config)
              (separators output_config)),
         Ok (channel, subdir, true)).
Proof.
  intros Htrim.
  destruct (parse_args_parsed cwd argv)
    as (log_level & output_config & Hparse & Hkeys).
  unfold has_trim in Hkeys. rewrite bool_decide_eq_false_2 in Hkeys by done.
  exists output_config. split.
  - unfold main. by rewrite Hparse.
  - intros timestamp channel subdir status_code text input_repodata.
    by apply fetch_repodata_without_trim_keys.
Qed.

Lemma main_without_trim_dumps_parsed_documents_witness :
  ∃ output_config,
    main malformed_world "/srv"
      [UseChannel "https://example.org/chan"; UseSubdir "noarch";
       UseTrimKey "md5"]
    = Ok (fetch malformed_world output_config
            (if decide (channel_values
                          [UseChannel "https://example.org/chan";
                           UseSubdir "noarch"; UseTrimKey "md5"] = [])
             then _DEFAULT_CHANNELS
             else channel_values
                    [UseChannel "https://example.org/chan";
                     UseSubdir "noarch"; UseTrimKey "md5"])
            (if decide (subdir_values
                          [UseChannel "https://example.org/chan";
                           UseSubdir "noarch"; UseTrimKey "md5"] = [])
             then _DEFAULT_SUBDIRS
             else subdir_values
                    [UseChannel "https://example.org/chan";
                     UseSubdir "noarch"; UseTrimKey "md5"])) ∧
    ∀ timestamp channel subdir status_code text input_repodata,
      http_get malformed_world (fetch_session malformed_world)
        (url_prefix channel subdir +:+ "/repodata.json")
      = HttpResponse status_code text →
      ¬ (400 ≤ status_code < 600) →
      json_loads malformed_world text = Some input_repodata →
      io_fails malformed_world (output_dir output_config channel subdir)
      = false →
      io_fails malformed_world
        (output_file_path output_config channel subdir +:+ ".time") = false →
      io_fails malformed_world (output_file_path output_config channel subdir)
      = false →
      fetch_repodata malformed_world (fetch_session malformed_world) timestamp
        output_config channel subdir
      = (success_trace output_config timestamp channel subdir
           (json_dump malformed_world input_repodata (indent output_config)
              (separators output_config)),
         Ok (channel, subdir, true)).
Proof.
  apply (main_without_trim_dumps_parsed_documents malformed_world "/srv"
           [UseChannel "https://example.org/chan"; UseSubdir "noarch";
            UseTrimKey "md5"]).
  apply (bool_decide_unpack _). vm_compute. exact I.
Defined.
